(** * A shallow embedding of the bounded-concurrency crawler

    The development follows [python-crawler/main.py]: the per-URL
    coroutine [fetch_url], the orchestrator [crawl_urls] running on the
    asyncio event loop, and the summary computed by [main].

    Python values are modelled as follows.
    - [str] is [string]; a character stands for a code point below 256.
    - [int] is [Z]; [len] results are [nat].
    - [float] is the kernel's binary64 type [float].
    - A raised exception is a value of [PyExc], results of code that can
      raise live in [Py A].
    Everything that the program only observes (the network, the HTML and
    JSON decoders, the clock, the order in which the event loop resumes
    tasks) enters the model as data: outcomes and events. *)

From Stdlib Require Import ZArith Lia Bool.
From Stdlib Require Import Strings.Ascii Strings.String Numbers.DecimalString.
From Stdlib Require Import Floats.PrimFloat Numbers.Cyclic.Int63.Uint63.
From stdpp Require Import base tactics option list.

Local Open Scope string_scope.
Local Open Scope nat_scope.

(** ** Exceptions *)

(** A Python exception: what [except] clauses can tell apart (the class)
    and what [str(e)] prints. *)
Inductive ExcClass :=
  TimeoutError | ValueError | ZeroDivisionError | OtherException.

Record PyExc := mkExc { exc_class : ExcClass; exc_str : string }.

Inductive Py (A : Type) :=
| Return (a : A)
| Raise (e : PyExc).
Arguments Return {A} a.
Arguments Raise {A} e.

Definition bind {A B} (m : Py A) (k : A -> Py B) : Py B :=
  match m with
  | Return a => k a
  | Raise e => Raise e
  end.

Notation "'try!' x ':=' m 'in' k" := (bind m (fun x => k))
  (at level 10, x name, m at level 100, k at level 200).

(** ** Python string operations *)

Module PyStr.

Definition code (c : ascii) : nat := nat_of_ascii c.

(** [str.isspace] on one character, for code points below 256. *)
Definition is_space (c : ascii) : bool :=
  let n := code c in
  ((9 <=? n) && (n <=? 13)) || ((28 <=? n) && (n <=? 32))
  || (n =? 133) || (n =? 160).

Definition is_ascii_alpha (c : ascii) : bool :=
  let n := code c in
  ((65 <=? n) && (n <=? 90)) || ((97 <=? n) && (n <=? 122)).

Definition is_digit (c : ascii) : bool :=
  let n := code c in (48 <=? n) && (n <=? 57).

Fixpoint lstrip_by (p : ascii -> bool) (s : string) : string :=
  match s with
  | EmptyString => EmptyString
  | String c s' => if p c then lstrip_by p s' else s
  end.

Fixpoint rstrip_by (p : ascii -> bool) (s : string) : string :=
  match s with
  | EmptyString => EmptyString
  | String c s' =>
      match rstrip_by p s' with
      | EmptyString => if p c then EmptyString else String c EmptyString
      | r => String c r
      end
  end.

(** [s.strip()] *)
Definition strip (s : string) : string :=
  rstrip_by is_space (lstrip_by is_space s).

(** [c in s] for a one-character [c]. *)
Fixpoint contains_char (c : ascii) (s : string) : bool :=
  match s with
  | EmptyString => false
  | String d s' => if Ascii.eqb c d then true else contains_char c s'
  end.

(** [s.startswith(p)] *)
Fixpoint startswith (p s : string) : bool :=
  match p, s with
  | EmptyString, _ => true
  | String a p', String b s' => Ascii.eqb a b && startswith p' s'
  | String _ _, EmptyString => false
  end.

(** [sub in s] *)
Fixpoint contains (sub s : string) : bool :=
  startswith sub s ||
  match s with
  | EmptyString => false
  | String _ s' => contains sub s'
  end.

(** [s.find(c)]: [None] stands for Python's [-1]. *)
Fixpoint find (c : ascii) (s : string) : option nat :=
  match s with
  | EmptyString => None
  | String d s' =>
      if Ascii.eqb c d then Some 0
      else match find c s' with
           | Some i => Some (S i)
           | None => None
           end
  end.

(** [s[:n]] and [s[n:]] *)
Fixpoint take (n : nat) (s : string) : string :=
  match n, s with
  | S n', String c s' => String c (take n' s')
  | _, _ => EmptyString
  end.

Fixpoint drop (n : nat) (s : string) : string :=
  match n, s with
  | S n', String _ s' => drop n' s'
  | _, _ => s
  end.

(** [s.find(c, start)] *)
Definition find_from (c : ascii) (s : string) (start : nat) : option nat :=
  match find c (drop start s) with
  | Some i => Some (start + i)
  | None => None
  end.

(** [s[a:b]] *)
Definition slice (s : string) (a b : nat) : string :=
  take (b - a) (drop a s).

(** [s.replace(c, "")] for a one-character [c]. *)
Fixpoint remove_char (c : ascii) (s : string) : string :=
  match s with
  | EmptyString => EmptyString
  | String d s' =>
      if Ascii.eqb c d then remove_char c s' else String d (remove_char c s')
  end.

Fixpoint forallb (p : ascii -> bool) (s : string) : bool :=
  match s with
  | EmptyString => true
  | String c s' => p c && forallb p s'
  end.

(** [s.partition(c)]: the text before the first [c], whether [c] was
    found, and the text after it. *)
Definition partition (c : ascii) (s : string) : string * bool * string :=
  match find c s with
  | Some i => (take i s, true, drop (S i) s)
  | None => (s, false, EmptyString)
  end.

(** The last index of [c] in [s], as [s.rfind(c)]. *)
Fixpoint rfind (c : ascii) (s : string) : option nat :=
  match s with
  | EmptyString => None
  | String d s' =>
      match rfind c s' with
      | Some i => Some (S i)
      | None => if Ascii.eqb c d then Some 0 else None
      end
  end.

(** [s.rpartition(c)[2]]: the text after the last [c], all of [s] when
    there is none. *)
Definition rpartition_tail (c : ascii) (s : string) : string :=
  match rfind c s with
  | Some i => drop (S i) s
  | None => s
  end.

(** [str(n)] for an [int] and for a length. *)
Definition str_of_int (z : Z) : string := NilZero.string_of_int (Z.to_int z).
Definition str_of_len (n : nat) : string := NilZero.string_of_uint (Nat.to_uint n).

End PyStr.

(** ** [urllib.parse]: the part of [urlsplit] that yields [netloc]

    [fetch_url] reads [urlparse(url).netloc].  [urlparse] calls
    [urlsplit] and afterwards only re-splits the path, so its [netloc] is
    the one computed here.  The validation of a bracketed host (regular
    expressions and the [ipaddress] module) is a parameter: it answers
    with the message of the [ValueError] it raises, if any. *)

Module UrlParse.
Import PyStr.

Record SplitResult := mkSplit {
  scheme : string;
  netloc : string;
  path : string;
  query : string;
  fragment : string
}.

(** [_WHATWG_C0_CONTROL_OR_SPACE] *)
Definition is_c0_control_or_space (c : ascii) : bool := code c <=? 32.

(** [scheme_chars] *)
Definition is_scheme_char (c : ascii) : bool :=
  is_ascii_alpha c || is_digit c || contains_char c "+-.".

Definition lower_char (c : ascii) : ascii :=
  let n := code c in
  if (65 <=? n) && (n <=? 90) then ascii_of_nat (n + 32) else c.

Fixpoint lower (s : string) : string :=
  match s with
  | EmptyString => EmptyString
  | String c s' => String (lower_char c) (lower s')
  end.

Definition invalid_ipv6 : PyExc := mkExc ValueError "Invalid IPv6 URL".

(** [_splitnetloc(url, start)] *)
Definition splitnetloc (url : string) (start : nat) : string * string :=
  let earliest (delim : nat) (c : ascii) : nat :=
    match find_from c url start with
    | Some wdelim => Nat.min delim wdelim
    | None => delim
    end in
  let delim := String.length url in
  let delim := earliest delim "/"%char in
  let delim := earliest delim "?"%char in
  let delim := earliest delim "#"%char in
  (slice url start delim, drop delim url).

(** [url.split(c, 1)] when [c in url], else [url] and the empty string. *)
Definition split_once (c : ascii) (url : string) : string * string :=
  match find c url with
  | Some i => (take i url, drop (S i) url)
  | None => (url, EmptyString)
  end.

Section Urlsplit.
Variable check_bracketed_host : string -> option string.

Definition run_check (hostname : string) : Py unit :=
  match check_bracketed_host hostname with
  | Some msg => Raise (mkExc ValueError msg)
  | None => Return tt
  end.

(** [_check_bracketed_netloc(netloc)] *)
Definition check_bracketed_netloc (netloc : string) : Py unit :=
  let hostname_and_port := rpartition_tail "@"%char netloc in
  match partition "["%char hostname_and_port with
  | (before_bracket, true, bracketed) =>
      if negb (String.eqb before_bracket "") then Raise invalid_ipv6
      else
        match partition "]"%char bracketed with
        | (hostname, _, port) =>
            if negb (String.eqb port "") && negb (startswith ":" port)
            then Raise invalid_ipv6
            else run_check hostname
        end
  | (_, false, _) =>
      match partition ":"%char hostname_and_port with
      | (hostname, _, _) => run_check hostname
      end
  end.

(** [urlsplit(url)] with the default [scheme=''] and
    [allow_fragments=True].  [_checknetloc] is left out: it raises only
    when NFKC normalisation of a non-ASCII [netloc] produces one of
    [/?#@:], which no code point below 256 does. *)
Definition urlsplit (url : string) : Py SplitResult :=
  let url := lstrip_by is_c0_control_or_space url in
  let url := remove_char "009"%char url in
  let url := remove_char "013"%char url in
  let url := remove_char "010"%char url in
  let '(scheme, url) :=
    match find ":"%char url with
    | Some i =>
        if (0 <? i)
           && match url with
              | String c _ => is_ascii_alpha c
              | EmptyString => false
              end
           && forallb is_scheme_char (take i url)
        then (lower (take i url), drop (S i) url)
        else (EmptyString, url)
    | None => (EmptyString, url)
    end in
  try! located :=
    (if String.eqb (take 2 url) "//" then
       let '(netloc, rest) := splitnetloc url 2 in
       let has_open := contains_char "["%char netloc in
       let has_close := contains_char "]"%char netloc in
       if (has_open && negb has_close) || (has_close && negb has_open)
       then Raise invalid_ipv6
       else
         try! checked :=
           (if has_open && has_close
            then check_bracketed_netloc netloc
            else Return tt) in
         Return (netloc, rest)
     else Return (EmptyString, url)) in
  let '(netloc, url) := located in
  let '(url, fragment) := split_once "#"%char url in
  let '(url, query) := split_once "?"%char url in
  Return (mkSplit scheme netloc url query fragment).

(** [urlparse(url).netloc] *)
Definition urlparse_netloc (url : string) : Py string :=
  try! parts := urlsplit url in Return (netloc parts).


End Urlsplit.

(** Before CPython 3.11.4 a bracketed host is not validated at all. *)
Definition no_host_validation (hostname : string) : option string := None.

(** [SplitResult.hostname]: the [netloc] without user information and
    port, in lower case up to a zone identifier; [None] when empty. *)
Definition hostname (parts : SplitResult) : option string :=
  let hostinfo := rpartition_tail "@"%char (netloc parts) in
  let name :=
    match partition "["%char hostinfo with
    | (_, true, bracketed) => fst (fst (partition "]"%char bracketed))
    | (_, false, _) => fst (fst (partition ":"%char hostinfo))
    end in
  if String.eqb name "" then None
  else
    match partition "%"%char name with
    | (host, true, zone) => Some (lower host ++ "%" ++ zone)
    | (host, false, _) => Some (lower host)
    end.

(** The shapes of a URL written [scheme://authority] and then nothing, a
    path, a query or a fragment. *)
Definition is_scheme (s : string) : bool :=
  match s with
  | String c _ => is_ascii_alpha c && forallb is_scheme_char s
  | EmptyString => false
  end.

Definition is_authority_char (c : ascii) : bool :=
  negb (contains_char c "/?#[]") && negb (code c =? 9)
  && negb (code c =? 10) && negb (code c =? 13).

Definition starts_component (rest : string) : bool :=
  match rest with
  | String c _ => contains_char c "/?#"
  | EmptyString => true
  end.



End UrlParse.

(** ** [bs4]: the tree that [BeautifulSoup(html, 'html.parser')] builds

    Only the two accessors that [fetch_url] uses are embedded: the
    attribute [soup.title] (the first [title] tag in document order) and
    the property [.string]. *)

Module Soup.

#[warnings="-register-all"] Inductive Node :=
| NavigableString (s : string)
| Tag (name : string) (contents : list Node).

(** [Tag.find(name)] searches the descendants in document order. *)
Fixpoint find_node (name : string) (n : Node) : option Node :=
  match n with
  | NavigableString _ => None
  | Tag nm contents =>
      if String.eqb nm name then Some n
      else
        (fix first (l : list Node) : option Node :=
           match l with
           | [] => None
           | c :: l' =>
               match find_node name c with
               | Some t => Some t
               | None => first l'
               end
           end) contents
  end.

Fixpoint find (name : string) (contents : list Node) : option Node :=
  match contents with
  | [] => None
  | c :: l =>
      match find_node name c with
      | Some t => Some t
      | None => find name l
      end
  end.

(** [soup.title] *)
Definition title (soup : list Node) : option Node := find "title" soup.

(** [node.string]: a string is its own [.string]; a tag with exactly one
    child has that child's [.string]; any other tag has [None]. *)
Fixpoint string_of (n : Node) : option string :=
  match n with
  | NavigableString s => Some s
  | Tag _ [child] => string_of child
  | Tag _ _ => None
  end.

End Soup.

(** ** The crawler *)

Module Crawler.
Import PyStr.

(** A number as [json.dump] would see it: [0] on the empty run is an
    [int], a quotient is a [float]. *)
Inductive PyNumber :=
| PyInt (z : Z)
| PyFloat (f : float).

(** What the coroutine observes of an [aiohttp] response. *)
Record Response := mkResponse {
  (** [response.status] *)
  resp_status : Z;
  (** [response.headers.get('Content-Type')], [None] when absent *)
  resp_content_type : option string;
  (** [BeautifulSoup(await response.text(), 'html.parser')] *)
  resp_soup : Py (list Soup.Node);
  (** [str(await response.json())] *)
  resp_json_str : Py string
}.

(** The dictionary that [fetch_url] returns. *)
Record FetchResult := mkResult {
  url : string;
  title : string;
  status : Z;
  time_taken : float;
  domain : string
}.

(** Lines 21-32: the title before it is normalised; [None] is Python's
    [None]. *)
Definition classify (response : Response) : Py (option string) :=
  let content_type := default "" (resp_content_type response) in
  if contains "text/html" content_type then
    try! soup := resp_soup response in
    Return (match Soup.title soup with
            | Some t => Soup.string_of t
            | None => Some "No title found"
            end)
  else if contains "application/json" content_type then
    try! data := resp_json_str response in
    Return (Some ("JSON Response: " ++ str_of_len (String.length data)
                  ++ " characters"))
  else
    Return (Some ("Non-HTML content: " ++ content_type)).

(** Line 37: [title.strip() if isinstance(title, str) else str(title)] *)
Definition normalise_title (t : option string) : string :=
  match t with
  | Some s => strip s
  | None => "None"
  end.

(** Lines 16-65, once [start_time] and [domain] are bound: the [try]
    statement.  [got] is what [session.get] delivers, [now] the clock
    reading taken on the way out. *)
Definition fetch_body (url domain : string) (start_time : float)
    (got : Py Response) (now : float) : FetchResult :=
  let elapsed := (now - start_time)%float in
  let attempt : Py FetchResult :=
    try! response := got in
    if (resp_status response =? 200)%Z then
      try! t := classify response in
      Return (mkResult url (normalise_title t) (resp_status response)
                elapsed domain)
    else
      Return (mkResult url
                ("Error: HTTP " ++ str_of_int (resp_status response))
                (resp_status response) elapsed domain) in
  match attempt with
  | Return r => r
  | Raise e =>
      match exc_class e with
      | TimeoutError => mkResult url "Error: Timeout" (-1) elapsed domain
      | _ => mkResult url ("Error: " ++ exc_str e) (-1) elapsed domain
      end
  end.

Section WithRuntime.
Variable check_bracketed_host : string -> option string.

(** [fetch_url(session, url, semaphore)]: lines 13-14 run before the
    [try] statement. *)
Definition fetch_url (url : string) (start_time : float)
    (got : Py Response) (now : float) : Py FetchResult :=
  try! domain := UrlParse.urlparse_netloc check_bracketed_host url in
  Return (fetch_body url domain start_time got now).

(** *** The event loop

    [crawl_urls] turns every URL into a task and awaits
    [asyncio.gather].  The loop is single-threaded: a task runs until
    it suspends, so a run is a sequence of events, each resuming one
    task.  A task suspends at the semaphore and, holding a slot, on
    the network. *)

Inductive Task :=
| Created
| Waiting (start_time : float) (domain : string)
| Fetching (start_time : float) (domain : string)
| Done (r : FetchResult)
| Failed (e : PyExc).

Record Loop := mkLoop {
  (** the counter of [asyncio.Semaphore] *)
  sem_value : Z;
  (** the tasks of [gather], in the order of [urls] *)
  tasks : list Task;
  (** the exception [gather] has passed on to [crawl_urls], if any *)
  gather_exc : option PyExc
}.

Inductive Event :=
(** task [i] runs lines 13-14 and reaches [async with semaphore] *)
| Start (i : nat) (now : float)
(** task [i] is granted a slot and issues [session.get]; a task that
    finds the semaphore free on arrival is a [Start] directly followed
    by its [Acquire] *)
| Acquire (i : nat)
(** the request of task [i] ends with [got]; the task runs to its
    [return], leaving [async with semaphore] on the way *)
| Complete (i : nat) (got : Py Response) (now : float).

(** One event; [None] when the loop cannot take it.  Once [gather] has
    raised, [crawl_urls] is over and nothing more is observed.  The
    connector limit of line 73 equals the limit of the semaphore and a
    connection is only used inside [async with semaphore], so it never
    blocks a task that holds a slot and has no event of its own. *)
Definition step (urls : list string) (st : Loop) (ev : Event)
    : option Loop :=
  match gather_exc st with
  | Some _ => None
  | None =>
      match ev with
      | Start i now =>
          match tasks st !! i, urls !! i with
          | Some Created, Some url =>
              match UrlParse.urlparse_netloc check_bracketed_host url with
              | Return domain =>
                  Some (mkLoop (sem_value st)
                          (<[i := Waiting now domain]> (tasks st)) None)
              | Raise e =>
                  Some (mkLoop (sem_value st)
                          (<[i := Failed e]> (tasks st)) (Some e))
              end
          | _, _ => None
          end
      | Acquire i =>
          match tasks st !! i with
          | Some (Waiting start_time domain) =>
              if (0 <? sem_value st)%Z then
                Some (mkLoop (sem_value st - 1)
                        (<[i := Fetching start_time domain]> (tasks st))
                        None)
              else None
          | _ => None
          end
      | Complete i got now =>
          match tasks st !! i, urls !! i with
          | Some (Fetching start_time domain), Some url =>
              Some (mkLoop (sem_value st + 1)
                      (<[i := Done (fetch_body url domain start_time
                                      got now)]> (tasks st))
                      None)
          | _, _ => None
          end
      end
  end.

Fixpoint run (urls : list string) (st : Loop) (schedule : list Event)
    : option Loop :=
  match schedule with
  | [] => Some st
  | ev :: rest =>
      match step urls st ev with
      | Some st' => run urls st' rest
      | None => None
      end
  end.

Definition semaphore_error : PyExc :=
  mkExc ValueError "Semaphore initial value must be >= 0".

(** Lines 69-76: the semaphore and one task per URL. *)
Definition init (urls : list string) (max_concurrency : Z) : Py Loop :=
  if (max_concurrency <? 0)%Z then Raise semaphore_error
  else Return (mkLoop max_concurrency (map (fun _ => Created) urls) None).

Definition task_result (t : Task) : option FetchResult :=
  match t with
  | Done r => Some r
  | _ => None
  end.

(** [await asyncio.gather] on the tasks: the first exception of a task is
    raised at once; otherwise the results of all tasks, in the order
    of the tasks, once every task is done.  [None]: still waiting. *)
Definition gather (st : Loop) : option (Py (list FetchResult)) :=
  match gather_exc st with
  | Some e => Some (Raise e)
  | None =>
      match mapM task_result (tasks st) with
      | Some results => Some (Return results)
      | None => None
      end
  end.

(** [crawl_urls(urls, max_concurrency)] under a schedule of the event
    loop.  [None]: the schedule is not one the loop can follow, or it
    leaves [gather] waiting. *)
Definition crawl_urls (urls : list string) (max_concurrency : Z)
    (schedule : list Event) : option (Py (list FetchResult)) :=
  match init urls max_concurrency with
  | Raise e => Some (Raise e)
  | Return st0 =>
      match run urls st0 schedule with
      | Some st => gather st
      | None => None
      end
  end.

(** The states the loop of [crawl_urls] goes through. *)
Definition reaches (urls : list string) (max_concurrency : Z)
    (schedule : list Event) (st : Loop) : Prop :=
  exists st0, init urls max_concurrency = Return st0
              /\ run urls st0 schedule = Some st.

(** The number of tasks inside [async with semaphore]. *)
Fixpoint held (ts : list Task) : nat :=
  match ts with
  | [] => 0
  | Fetching _ _ :: ts' => S (held ts')
  | _ :: ts' => held ts'
  end.

(** What a task contributes to [held]. *)
Definition slot (t : Task) : nat :=
  match t with
  | Fetching _ _ => 1
  | _ => 0
  end.

(** How many events a task can still take part in. *)
Definition pending (t : Task) : nat :=
  match t with
  | Created => 3
  | Waiting _ _ => 2
  | Fetching _ _ => 1
  | Done _ | Failed _ => 0
  end.

Fixpoint remaining (ts : list Task) : nat :=
  match ts with
  | [] => 0
  | t :: ts' => pending t + remaining ts'
  end.

(** *** Invariants of the loop *)

(** What every step preserves: the counter and the slots in use add up to
    the same number, the counter stays non-negative, no task appears or
    disappears. *)
Definition balanced (urls : list string) (n : Z) (st : Loop) : Prop :=
  (sem_value st + Z.of_nat (held (tasks st)) = n)%Z
  /\ (0 <= sem_value st)%Z
  /\ length (tasks st) = length urls.

(** What a task in a given state owes to the events that led there. *)
Definition owes (urls : list string) (past : list Event)
    (exc : option PyExc) (i : nat) (t : Task) : Prop :=
  match t with
  | Created => True
  | Waiting t0 d | Fetching t0 d =>
      exists u, urls !! i = Some u
                /\ UrlParse.urlparse_netloc check_bracketed_host u = Return d
                /\ Start i t0 ∈ past
  | Done r =>
      exists u t0 got now,
        urls !! i = Some u /\ Start i t0 ∈ past
        /\ Complete i got now ∈ past
        /\ fetch_url u t0 got now = Return r
  | Failed e => exc <> None
  end.

Definition explained (urls : list string) (past : list Event) (st : Loop)
    : Prop :=
  forall i t, tasks st !! i = Some t -> owes urls past (gather_exc st) i t.

End WithRuntime.

(** *** The summary of [main] *)

(** [len(urls)] as the [float] that [/] converts it to. *)
Definition float_of_len (n : nat) : float :=
  PrimFloat.of_uint63 (Uint63.of_Z (Z.of_nat n)).

(** [total_time / n] *)
Definition truediv (total_time : float) (n : nat) : Py float :=
  if n =? 0 then Raise (mkExc ZeroDivisionError "float division by zero")
  else Return (total_time / float_of_len n)%float.

(** [sum(1 for r in results if p(r["status"]))] *)
Fixpoint count_status (p : Z -> bool) (results : list FetchResult) : nat :=
  match results with
  | [] => 0
  | r :: rest =>
      if p (status r) then 1 + count_status p rest
      else count_status p rest
  end.

Record Summary := mkSummary {
  total_urls : nat;
  successful_fetches : nat;
  failed_fetches : nat;
  total_time : float;
  average_time_per_url : PyNumber
}.

(** Lines 125-131. *)
Definition summary (urls : list string) (results : list FetchResult)
    (total_time : float) : Py Summary :=
  try! average :=
    (match urls with
     | _ :: _ =>
         try! q := truediv total_time (length urls) in Return (PyFloat q)
     | [] => Return (PyInt 0)
     end) in
  Return (mkSummary (length urls)
            (count_status (fun s => (s =? 200)%Z) results)
            (count_status (fun s => negb (s =? 200)%Z) results)
            total_time average).

(** *** Sample inputs *)

Definition html_page (soup : list Soup.Node) : Response :=
  mkResponse 200 (Some "text/html; charset=utf-8") (Return soup)
    (Raise (mkExc OtherException "not JSON")).

Definition plain_response (st : Z) (ct : option string) : Response :=
  mkResponse st ct (Return []) (Raise (mkExc OtherException "not JSON")).

Definition json_response (repr : string) : Response :=
  mkResponse 200 (Some "application/json") (Return []) (Return repr).

Definition empty_title_page : list Soup.Node :=
  [Soup.Tag "html" [Soup.Tag "head" [Soup.Tag "title" []]; Soup.Tag "body" []]].

Definition example_page : list Soup.Node :=
  [Soup.Tag "html"
     [Soup.Tag "head" [Soup.Tag "title" [Soup.NavigableString "Example"]]]].

Definition scenario_urls : list string :=
  ["https://example.com"; "https://httpbin.org/status/500";
   "https://httpbin.org/delay/999"].

Definition two_slots_taken : list Event :=
  [Start 0 0%float; Start 1 0%float; Start 2 0%float; Acquire 0; Acquire 2].

(** The scenario of the specification with two slots: the third task
    waits until the first has completed. *)
Definition scenario_schedule : list Event :=
  [Start 0 0%float; Acquire 0; Start 1 0%float; Acquire 1; Start 2 0%float;
   Complete 0 (Return (html_page example_page)) 0.5%float;
   Acquire 2;
   Complete 1 (Return (plain_response 500 (Some "text/html"))) 0.75%float;
   Complete 2 (Raise (mkExc TimeoutError "")) 1.5%float].


End Crawler.

(** ** Text files

    [open(name, 'r')] and [open(name, 'w')] in text mode.  Reading
    decodes the bytes of the file and translates every line ending to a
    line feed, iterating yields the lines with their line feed; writing
    turns a line feed into the line separator of the platform and encodes
    the text, which fails on a character that the encoding lacks. *)

Module TextFile.

Definition LF : ascii := "010"%char.
Definition CR : ascii := "013"%char.

(** Universal newlines on reading: [pending_cr] says that the character
    before was a carriage return, already delivered as a line feed. *)
Fixpoint universal_newlines (pending_cr : bool) (s : string) : string :=
  match s with
  | EmptyString => EmptyString
  | String c s' =>
      if Ascii.eqb c CR then String LF (universal_newlines true s')
      else if Ascii.eqb c LF then
        if pending_cr then universal_newlines false s'
        else String LF (universal_newlines false s')
      else String c (universal_newlines false s')
  end.

(** [for line in f]: the lines of a text, each with its line feed but
    possibly the last. *)
Fixpoint readlines (text : string) : list string :=
  match text with
  | EmptyString => []
  | String c text' =>
      if Ascii.eqb c LF then String LF EmptyString :: readlines text'
      else
        match readlines text' with
        | [] => [String c EmptyString]
        | line :: rest => String c line :: rest
        end
  end.

(** What iterating over a file opened for reading yields. *)
Definition iterate (content : string) : list string :=
  readlines (universal_newlines false content).

Inductive Platform := Posix | Windows.

(** [os.linesep] *)
Definition linesep (p : Platform) : string :=
  match p with
  | Posix => String LF EmptyString
  | Windows => String CR (String LF EmptyString)
  end.

(** Writing in text mode first turns every line feed into the line
    separator of the platform. *)
Fixpoint with_linesep (p : Platform) (s : string) : string :=
  match s with
  | EmptyString => EmptyString
  | String c s' =>
      if Ascii.eqb c LF then linesep p ++ with_linesep p s'
      else String c (with_linesep p s')
  end.

(** The encoding of a file, the one of the locale when [open] is given
    none, for the encodings that encode one character after the other
    (UTF-8, ASCII, Latin-1, the code pages): the bytes of a character,
    [None] where the encoding has no such character; [str(e)] of the
    [UnicodeEncodeError] raised there, from the position and the
    character; decoding, with errors ['strict']. *)
Record Codec := mkCodec {
  encode_char : ascii -> option string;
  encode_message : nat -> ascii -> string;
  decode : string -> Py string
}.

Definition can_encode (c : Codec) (ch : ascii) : bool :=
  match encode_char c ch with
  | Some _ => true
  | None => false
  end.

(** [s.encode(encoding)], counting positions from [position];
    [UnicodeEncodeError] is a [ValueError]. *)
Fixpoint encode_from (c : Codec) (position : nat) (s : string) : Py string :=
  match s with
  | EmptyString => Return EmptyString
  | String ch s' =>
      match encode_char c ch with
      | None => Raise (mkExc ValueError (encode_message c position ch))
      | Some bytes =>
          try! rest := encode_from c (S position) s' in
          Return (bytes ++ rest)
      end
  end.

Definition encode (c : Codec) (s : string) : Py string := encode_from c 0 s.

(** [f.write(s)] on a file opened with ['w']: the bytes that reach the
    file, or the [UnicodeEncodeError]. *)
Definition written (c : Codec) (p : Platform) (s : string) : Py string :=
  encode c (with_linesep p s).

(** An encoding gives back what it encoded. *)
Definition lossless (c : Codec) : Prop :=
  forall s bytes, encode c s = Return bytes -> decode c bytes = Return s.

(** What holds of the encodings a locale has: they give back what they
    encoded, they can encode what they decoded, and they have the two
    line break characters. *)
Definition regular (c : Codec) : Prop :=
  lossless c
  /\ (forall bytes s,
        decode c bytes = Return s -> PyStr.forallb (can_encode c) s = true)
  /\ can_encode c LF = true /\ can_encode c CR = true.

(** Latin-1 has every character of the model, each as one byte. *)
Definition latin_1 : Codec :=
  mkCodec (fun ch => Some (String ch EmptyString))
    (fun _ _ => EmptyString) (fun bytes => Return bytes).

Definition hex_digit (n : nat) : ascii :=
  match n with
  | 0 => "0" | 1 => "1" | 2 => "2" | 3 => "3" | 4 => "4" | 5 => "5"
  | 6 => "6" | 7 => "7" | 8 => "8" | 9 => "9" | 10 => "a" | 11 => "b"
  | 12 => "c" | 13 => "d" | 14 => "e" | _ => "f"
  end%char.

Definition hex2 (n : nat) : string :=
  String (hex_digit (n / 16)) (String (hex_digit (n mod 16)) EmptyString).

Fixpoint ascii_decode_from (position : nat) (bytes : string) : Py string :=
  match bytes with
  | EmptyString => Return EmptyString
  | String b rest =>
      if PyStr.code b <? 128 then
        try! s := ascii_decode_from (S position) rest in
        Return (String b s)
      else
        Raise (mkExc ValueError
                 ("'ascii' codec can't decode byte 0x" ++ hex2 (PyStr.code b)
                  ++ " in position " ++ PyStr.str_of_len position
                  ++ ": ordinal not in range(128)"))
  end.

(** ASCII has the characters below 128. *)
Definition ascii_codec : Codec :=
  mkCodec
    (fun ch =>
       if PyStr.code ch <? 128 then Some (String ch EmptyString) else None)
    (fun position ch =>
       "'ascii' codec can't encode character '\x" ++ hex2 (PyStr.code ch)
       ++ "' in position " ++ PyStr.str_of_len position
       ++ ": ordinal not in range(128)")
    (ascii_decode_from 0).

(** An encoding that has the characters below 128. *)
Definition has_ascii (c : Codec) : Prop :=
  forall ch, PyStr.code ch < 128 -> can_encode c ch = true.

End TextFile.

(** ** The rest of [main.py] *)

Module Main.
Import PyStr Crawler.

(** [load_urls(filename)], on the content of the file. *)
Definition load_urls (content : string) : list string :=
  map strip
    (List.filter (fun line => negb (String.eqb (strip line) EmptyString))
       (TextFile.iterate content)).

(** [load_urls(filename)], on the bytes of the file read in the
    encoding [c]. *)
Definition load_urls_file (c : TextFile.Codec) (file : string)
    : Py (list string) :=
  try! content := TextFile.decode c file in Return (load_urls content).

(** A text without white space at either end. *)
Definition trimmed (s : string) : Prop :=
  lstrip_by is_space s = s /\ rstrip_by is_space s = s.

(** A URL as one line of the file can hold it: not empty, no white space
    at either end, no line break inside. *)
Definition plain_line (u : string) : Prop :=
  u <> EmptyString /\ strip u = u
  /\ contains_char TextFile.LF u = false
  /\ contains_char TextFile.CR u = false.

(** [combined_results] of lines 143-146. *)
Record Report := mkReport {
  report_summary : Summary;
  report_results : list FetchResult
}.

Section WithRuntime.
Variable check_bracketed_host : string -> option string.

(** Lines 116-146 of [main]: the crawl, the summary and the report that
    is saved.  [total_time] is the difference of the two clock readings
    around [asyncio.run].  [None]: the schedule does not lead
    [crawl_urls] to its end. *)
Definition crawl_report (urls : list string) (max_concurrency : Z)
    (schedule : list Event) (total_time : float) : option (Py Report) :=
  match crawl_urls check_bracketed_host urls max_concurrency schedule with
  | None => None
  | Some (Raise e) => Some (Raise e)
  | Some (Return results) =>
      Some (try! s := summary urls results total_time in
            Return (mkReport s results))
  end.

(** Lines 92-102 and 116-146 of [main]: [urls_file] is the content of
    [urls.txt], [None] when the file does not exist.  [inl 1] is
    [sys.exit(1)]. *)
Definition main_report (urls_file : option string) (max_concurrency : Z)
    (schedule : list Event) (total_time : float)
    : nat + option (Py Report) :=
  match urls_file with
  | None => inl 1
  | Some content =>
      inr (crawl_report (load_urls content) max_concurrency schedule
             total_time)
  end.

End WithRuntime.
End Main.

(** ** [generate_urls.py]

    The draws of the [random] module are inputs.  The one character above
    code point 255 in the tables, the dash U+2013 of the 30th article
    (position 29), is written as the three bytes of its UTF-8 form, where
    Python has one character.  Counting, selecting, appending and parsing
    do not look inside that entry; encoding does, so what is said of the
    written file is said of the draws that leave the entry out. *)

Module Generator.

Definition WIKIPEDIA_BASE : string := "https://en.wikipedia.org/wiki/".
Definition HTTPBIN_BASE : string := "https://httpbin.org/".

Definition WIKIPEDIA_ARTICLES : list string :=
  ["Algorithm"; "Computer_science"; "Programming_language";
   "Artificial_intelligence"; "Machine_learning"; "Data_science";
   "Computer_network"; "Database"; "Cloud_computing"; "Cybersecurity";
   "Operating_system"; "Web_development"; "Software_engineering";
   "Internet_of_things"; "Virtual_reality"; "Augmented_reality";
   "Quantum_computing"; "Blockchain"; "Cryptography"; "Big_data";
   "Robotics"; "Automation"; "Computer_vision";
   "Natural_language_processing"; "Neural_network"; "Deep_learning";
   "Reinforcement_learning"; "Computer_architecture";
   "Computer_graphics"; "Human–computer_interaction";
   "Information_theory"; "Computer_security"; "Software_testing";
   "Web_browser"; "Web_server"; "Search_engine"; "World_Wide_Web";
   "Internet_Protocol"; "TCP/IP"; "HTTP"; "HTTPS"; "HTML"; "CSS";
   "JavaScript"; "XML"; "JSON"; "API"; "REST"; "SOAP"; "GraphQL";
   "Microservices"; "Containers"; "Docker"; "Kubernetes";
   "Serverless_computing"; "DevOps"; "Continuous_integration";
   "Continuous_delivery"; "Unix"; "Linux"; "Microsoft_Windows"; "macOS";
   "Android_(operating_system)"; "iOS"; "Internet_Explorer";
   "Google_Chrome"; "Mozilla_Firefox"; "Safari_(web_browser)"].

Definition HTTPBIN_ENDPOINTS : list string :=
  ["get"; "post"; "put"; "delete"; "patch"; "ip"; "user-agent";
   "headers"; "uuid"; "status/200"; "status/404"; "status/500";
   "delay/1"; "html"; "json"; "image/png"; "image/jpeg"; "robots.txt";
   "xml"; "anything"].

Definition POPULAR_WEBSITES : list string :=
  ["https://github.com"; "https://stackoverflow.com";
   "https://news.ycombinator.com"; "https://reddit.com";
   "https://example.com"; "https://mozilla.org";
   "https://developer.mozilla.org"; "https://medium.com";
   "https://dev.to"; "https://go.dev"].

(** What the calls of [random] return during one run of
    [generate_urls]. *)
Record Draws := mkDraws {
  (** the positions [random.sample] selects, in the order it returns
      them, from the articles and from the endpoints *)
  article_picks : list nat;
  endpoint_picks : list nat;
  (** the position [random.choice] selects and the number
      [random.randint(1, 1000)] returns in round [i] of the loop *)
  choice_at : nat -> nat;
  randint_at : nat -> Z;
  (** after [random.shuffle], position [j] holds the element that was at
      position [shuffle_order[j]] *)
  shuffle_order : list nat
}.

Definition sample_error : PyExc :=
  mkExc ValueError "Sample larger than population or is negative".

(** The elements at the positions drawn. *)
Definition selected (population : list string) (picks : list nat)
    : list string :=
  map (fun i => default EmptyString (population !! i)) picks.

(** [random.sample(population, k)] *)
Definition sample (population : list string) (k : Z) (picks : list nat)
    : Py (list string) :=
  if (k <? 0)%Z || (Z.of_nat (length population) <? k)%Z
  then Raise sample_error
  else Return (selected population picks).

(** [l[:n]] *)
Definition slice_to (l : list string) (n : Z) : list string :=
  if (n <? 0)%Z then take (length l - Z.to_nat (- n)) l
  else take (Z.to_nat n) l.

(** The URLs before the loop of lines 76-82. *)
Definition base_urls (articles endpoints : list string) : list string :=
  (POPULAR_WEBSITES
   ++ map (fun article => WIKIPEDIA_BASE ++ article) articles)
  ++ map (fun endpoint => HTTPBIN_BASE ++ endpoint) endpoints.

(** Lines 79-82: the URL appended in round [i]. *)
Definition variant (d : Draws) (bases : list string) (i : nat) : string :=
  let base_url := default EmptyString (bases !! choice_at d i) in
  let query_param :=
    "?param" ++ PyStr.str_of_len i ++ "="
    ++ PyStr.str_of_int (randint_at d i) in
  base_url ++ query_param.

(** Lines 58-82, the two samples apart: the list before it is shuffled. *)
Definition assemble (count : Z) (d : Draws)
    (selected_articles selected_endpoints : list string) : list string :=
  let urls := base_urls selected_articles selected_endpoints in
  let remaining := (count - Z.of_nat (length urls))%Z in
  if (0 <? remaining)%Z
  then (urls ++ map (variant d urls) (seq 0 (Z.to_nat remaining)))%list
  else urls.

(** [generate_urls(count)] *)
Definition generate_urls (count : Z) (d : Draws) : Py (list string) :=
  let wikipedia_count :=
    Z.min (count / 2) (Z.of_nat (length WIKIPEDIA_ARTICLES)) in
  try! selected_articles :=
    sample WIKIPEDIA_ARTICLES wikipedia_count (article_picks d) in
  let httpbin_count :=
    Z.min (count / 4) (Z.of_nat (length HTTPBIN_ENDPOINTS)) in
  try! selected_endpoints :=
    sample HTTPBIN_ENDPOINTS httpbin_count (endpoint_picks d) in
  let urls := assemble count d selected_articles selected_endpoints in
  let urls := selected urls (shuffle_order d) in
  Return (slice_to urls count).

(** Lines 98-100 of [main]: the text that is written for a list of
    URLs. *)
Fixpoint url_lines (urls : list string) : string :=
  match urls with
  | [] => EmptyString
  | u :: rest => (u ++ String TextFile.LF EmptyString) ++ url_lines rest
  end.

(** Lines 97-100 of [main]: one [f.write] per URL; the bytes of the file
    when every write succeeds. *)
Fixpoint urls_file (c : TextFile.Codec) (p : TextFile.Platform)
    (urls : list string) : Py string :=
  match urls with
  | [] => Return EmptyString
  | u :: rest =>
      try! first :=
        TextFile.written c p (u ++ String TextFile.LF EmptyString) in
      try! more := urls_file c p rest in
      Return (first ++ more)
  end.

(** The draws [random] can make for [count]. *)
Definition selects (picks : list nat) (population : list string) (k : Z)
    : Prop :=
  length picks = Z.to_nat k /\ NoDup picks
  /\ Forall (fun i => i < length population) picks.

Definition possible (count : Z) (d : Draws) : Prop :=
  let wikipedia_count :=
    Z.min (count / 2) (Z.of_nat (length WIKIPEDIA_ARTICLES)) in
  let httpbin_count :=
    Z.min (count / 4) (Z.of_nat (length HTTPBIN_ENDPOINTS)) in
  let selected_articles := selected WIKIPEDIA_ARTICLES (article_picks d) in
  let selected_endpoints := selected HTTPBIN_ENDPOINTS (endpoint_picks d) in
  selects (article_picks d) WIKIPEDIA_ARTICLES wikipedia_count
  /\ selects (endpoint_picks d) HTTPBIN_ENDPOINTS httpbin_count
  /\ (forall i,
        choice_at d i
        < length (base_urls selected_articles selected_endpoints))
  /\ (forall i, (1 <= randint_at d i <= 1000)%Z)
  /\ shuffle_order d
     ≡ₚ seq 0 (length (assemble count d selected_articles
                         selected_endpoints)).

(** Draws for [count = 100]: fifty articles, twenty endpoints, twenty
    variants, the list reversed by the shuffle. *)
Definition sample_draws : Draws :=
  mkDraws (seq 0 50) (seq 0 20) (fun i => (7 * i) mod 80)
    (fun i => (1 + Z.of_nat (i mod 1000))%Z) (rev (seq 0 100)).

(** Draws for [count = 60] that leave out the article with the dash:
    thirty articles, fifteen endpoints, five variants. *)
Definition plain_draws : Draws :=
  mkDraws (seq 30 30) (seq 0 15) (fun i => (11 * i) mod 55)
    (fun i => (1000 - Z.of_nat (i mod 1000))%Z) (rev (seq 0 60)).

(** A text of characters below 128. *)
Definition seven_bit (s : string) : bool :=
  PyStr.forallb (fun ch => PyStr.code ch <? 128) s.

(** A text without any white space. *)
Definition no_space (s : string) : bool :=
  PyStr.forallb (fun c => negb (PyStr.is_space c)) s.

(** A URL that the file of any encoding with the characters below 128
    can hold as one line. *)
Definition plain_url (u : string) : Prop :=
  no_space u = true /\ u <> EmptyString /\ seven_bit u = true.

(** The hosts of the tables: the popular sites without their [https://]
    and the hosts of the two bases. *)
Definition hosts : list string :=
  (map (PyStr.drop 8) POPULAR_WEBSITES
   ++ ["en.wikipedia.org"; "httpbin.org"])%list.

(** A URL that is [https://], one of these hosts, and then nothing, a
    path, a query or a fragment. *)
Definition on_host (u : string) : Prop :=
  exists host rest,
    u = "https://" ++ host ++ rest
    /\ host ∈ hosts
    /\ UrlParse.starts_component rest = true.

(** A URL that consists of [https://] and a host. *)
Definition host_only (u : string) : bool :=
  PyStr.startswith "https://" u
  && PyStr.forallb UrlParse.is_authority_char (PyStr.drop 8 u)
  && negb (String.eqb (PyStr.drop 8 u) EmptyString).

End Generator.

(** * Properties *)

(** ** Trimming *)

Module StripFacts.
Import PyStr.

Lemma rstrip_by_cons_keep p c s :
  rstrip_by p s <> "" -> rstrip_by p (String c s) = String c (rstrip_by p s).
Proof.
  intros H. simpl. destruct (rstrip_by p s); [congruence | reflexivity].
Qed.

Lemma rstrip_by_app_keep p a b :
  rstrip_by p b <> "" -> rstrip_by p (a ++ b) = a ++ rstrip_by p b.
Proof.
  intros H. induction a as [|c a IH]; [reflexivity|].
  change (String c a ++ b) with (String c (a ++ b)).
  rewrite rstrip_by_cons_keep; rewrite IH; [reflexivity|].
  destruct a; simpl; [exact H | discriminate].
Qed.

Lemma rstrip_by_app_blank p a b :
  rstrip_by p b = "" -> rstrip_by p (a ++ b) = rstrip_by p a.
Proof.
  intros H. induction a as [|c a IH]; [exact H|].
  simpl. rewrite IH. reflexivity.
Qed.

Lemma strip_keeps_framed a b c :
  is_space c = false -> rstrip_by is_space b <> "" ->
  strip (String c a ++ b) = String c a ++ rstrip_by is_space b.
Proof.
  intros Hc Hb. unfold strip.
  change (String c a ++ b) with (String c (a ++ b)).
  simpl lstrip_by. rewrite Hc.
  change (String c (a ++ b)) with (String c a ++ b).
  apply rstrip_by_app_keep, Hb.
Qed.

End StripFacts.

(** ** One fetch *)

Module FetchSpec.
Import PyStr Crawler.

Lemma fetch_body_url u d t0 got now : url (fetch_body u d t0 got now) = u.
Proof.
  unfold fetch_body. destruct got as [resp|e]; simpl.
  - destruct (resp_status resp =? 200)%Z; simpl; [|reflexivity].
    destruct (classify resp) as [t|e]; simpl; [reflexivity|].
    destruct (exc_class e); reflexivity.
  - destruct (exc_class e); reflexivity.
Qed.

Lemma fetch_body_domain u d t0 got now : domain (fetch_body u d t0 got now) = d.
Proof.
  unfold fetch_body. destruct got as [resp|e]; simpl.
  - destruct (resp_status resp =? 200)%Z; simpl; [|reflexivity].
    destruct (classify resp) as [t|e]; simpl; [reflexivity|].
    destruct (exc_class e); reflexivity.
  - destruct (exc_class e); reflexivity.
Qed.

(** Inside the [try] statement a timeout and any other exception become
    results with the sentinel status. *)
Lemma fetch_body_timeout u d t0 msg now :
  fetch_body u d t0 (Raise (mkExc TimeoutError msg)) now
  = mkResult u "Error: Timeout" (-1) (now - t0)%float d.
Proof. reflexivity. Qed.

Lemma fetch_body_failure u d t0 e now :
  exc_class e <> TimeoutError ->
  fetch_body u d t0 (Raise e) now
  = mkResult u ("Error: " ++ exc_str e) (-1) (now - t0)%float d.
Proof.
  intros H. unfold fetch_body; simpl. destruct (exc_class e); congruence.
Qed.

Lemma fetch_body_decode_failure u d t0 resp e now :
  resp_status resp = 200%Z -> classify resp = Raise e ->
  exc_class e <> TimeoutError ->
  fetch_body u d t0 (Return resp) now
  = mkResult u ("Error: " ++ exc_str e) (-1) (now - t0)%float d.
Proof.
  intros Hs Hc He. unfold fetch_body; simpl. rewrite Hs, Hc; simpl.
  destruct (exc_class e); congruence.
Qed.

Lemma normalise_json_title n :
  normalise_title (Some ("JSON Response: " ++ n ++ " characters"))
  = "JSON Response: " ++ n ++ " characters".
Proof.
  unfold normalise_title.
  change ("JSON Response: " ++ n ++ " characters")
    with (String "J" ("SON Response: " ++ n) ++ " characters").
  rewrite StripFacts.strip_keeps_framed; [reflexivity | reflexivity | discriminate].
Qed.

Lemma normalise_non_html_title ct :
  normalise_title (Some ("Non-HTML content: " ++ ct))
  = if String.eqb (rstrip_by is_space ct) "" then "Non-HTML content:"
    else "Non-HTML content: " ++ rstrip_by is_space ct.
Proof.
  unfold normalise_title.
  destruct (String.eqb_spec (rstrip_by is_space ct) "") as [Hb|Hb].
  - unfold strip.
    change (lstrip_by is_space ("Non-HTML content: " ++ ct))
      with ("Non-HTML content: " ++ ct).
    rewrite StripFacts.rstrip_by_app_blank; [reflexivity | exact Hb].
  - change ("Non-HTML content: " ++ ct)
      with (String "N" "on-HTML content: " ++ ct).
    rewrite StripFacts.strip_keeps_framed; [reflexivity | reflexivity | exact Hb].
Qed.

Section Fetch.
Variable check_bracketed_host : string -> option string.

Lemma fetch_url_parsed u d t0 got now :
  UrlParse.urlparse_netloc check_bracketed_host u = Return d ->
  fetch_url check_bracketed_host u t0 got now = Return (fetch_body u d t0 got now).
Proof. intros H. unfold fetch_url. rewrite H. reflexivity. Qed.

(** C2: the [try] statement of [fetch_url] starts after the URL has been
    parsed, so the [ValueError] that [urlparse] raises on a URL with an
    unmatched bracket leaves [fetch_url] as an exception, whatever the
    network would have answered. *)
Theorem fetch_url_propagates_parse_error :
  (forall t0 got now,
      fetch_url check_bracketed_host "http://[" t0 got now
      = Raise UrlParse.invalid_ipv6)
  /\ (forall u e t0 got now,
        UrlParse.urlparse_netloc check_bracketed_host u = Raise e ->
        fetch_url check_bracketed_host u t0 got now = Raise e).
Proof.
  assert (H : forall u e t0 got now,
             UrlParse.urlparse_netloc check_bracketed_host u = Raise e ->
             fetch_url check_bracketed_host u t0 got now = Raise e).
  { intros u e t0 got now He. unfold fetch_url. rewrite He. reflexivity. }
  split; [|exact H].
  intros t0 got now. apply H. reflexivity.
Qed.

(** C6: a response with a status other than 200 is recorded with that
    status and the title [Error: HTTP] followed by the status. *)
Theorem fetch_url_http_error u d t0 resp now :
  UrlParse.urlparse_netloc check_bracketed_host u = Return d ->
  resp_status resp <> 200%Z ->
  fetch_url check_bracketed_host u t0 (Return resp) now
  = Return (mkResult u ("Error: HTTP " ++ str_of_int (resp_status resp))
              (resp_status resp) (now - t0)%float d).
Proof.
  intros Hd Hs. rewrite (fetch_url_parsed _ _ _ _ _ Hd).
  unfold fetch_body; simpl.
  destruct (Z.eqb_spec (resp_status resp) 200); [contradiction | reflexivity].
Qed.

(** C10: on every branch the result carries the input URL and the
    [netloc] parsed from it before the request; whenever [fetch_url]
    returns, its result does. *)
Theorem fetch_url_keeps_url_and_domain u t0 got now :
  (forall d, UrlParse.urlparse_netloc check_bracketed_host u = Return d ->
     exists r, fetch_url check_bracketed_host u t0 got now = Return r /\ url r = u /\ domain r = d)
  /\ (forall r, fetch_url check_bracketed_host u t0 got now = Return r ->
        url r = u /\ UrlParse.urlparse_netloc check_bracketed_host u = Return (domain r)).
Proof.
  split.
  - intros d Hd. eexists. split; [apply fetch_url_parsed, Hd|].
    split; [apply fetch_body_url | apply fetch_body_domain].
  - intros r. unfold fetch_url.
    destruct (UrlParse.urlparse_netloc check_bracketed_host u) as [d|e]; simpl; [|discriminate].
    intros [= <-]. rewrite fetch_body_url, fetch_body_domain. done.
Qed.

(** C7, as the code has it: for a 200 response whose Content-Type
    contains [text/html], the title is [No title found] when the document
    has no title element, the trimmed text when the title element has a
    [.string], and the text [None] when it has none (an empty title
    element, or one with several children). *)
Theorem fetch_url_html_title u d t0 resp ct soup now :
  UrlParse.urlparse_netloc check_bracketed_host u = Return d ->
  resp_status resp = 200%Z ->
  resp_content_type resp = Some ct ->
  contains "text/html" ct = true ->
  resp_soup resp = Return soup ->
  fetch_url check_bracketed_host u t0 (Return resp) now
  = Return (mkResult u
              match Soup.title soup with
              | None => "No title found"
              | Some t =>
                  match Soup.string_of t with
                  | Some s => strip s
                  | None => "None"
                  end
              end
              200 (now - t0)%float d).
Proof.
  intros Hd Hs Hct Hhtml Hsoup. rewrite (fetch_url_parsed _ _ _ _ _ Hd).
  unfold fetch_body, classify; simpl.
  rewrite Hs, Hct; simpl. rewrite Hhtml, Hsoup; simpl.
  destruct (Soup.title soup) as [t|]; [|reflexivity].
  destruct (Soup.string_of t); reflexivity.
Qed.

(** C8, as the code has it: for a 200 response whose Content-Type (the
    empty string when the header is absent) does not contain [text/html],
    a JSON body that decodes is summarised by the length of its string
    form; any other content type is reported after [Non-HTML content:]
    with the title trimmed, which keeps the content type verbatim unless
    it ends in white space (or is empty: then the separating blank goes
    too). *)
Theorem fetch_url_non_html_title u d t0 resp now :
  UrlParse.urlparse_netloc check_bracketed_host u = Return d ->
  resp_status resp = 200%Z ->
  contains "text/html" (default "" (resp_content_type resp)) = false ->
  let ct := default "" (resp_content_type resp) in
  (forall data,
      contains "application/json" ct = true ->
      resp_json_str resp = Return data ->
      fetch_url check_bracketed_host u t0 (Return resp) now
      = Return (mkResult u
                  ("JSON Response: " ++ str_of_len (String.length data)
                   ++ " characters")
                  200 (now - t0)%float d))
  /\ (contains "application/json" ct = false ->
      fetch_url check_bracketed_host u t0 (Return resp) now
      = Return (mkResult u
                  (if String.eqb (rstrip_by is_space ct) ""
                   then "Non-HTML content:"
                   else "Non-HTML content: " ++ rstrip_by is_space ct)
                  200 (now - t0)%float d)).
Proof.
  intros Hd Hs Hhtml ct. rewrite (fetch_url_parsed _ _ _ _ _ Hd).
  subst ct. unfold fetch_body, classify. cbv zeta.
  cbn [bind]. rewrite Hs, Z.eqb_refl, Hhtml.
  split.
  - intros data Hjson Hdata. rewrite Hjson, Hdata. cbn [bind].
    rewrite normalise_json_title. reflexivity.
  - intros Hjson. rewrite Hjson. cbn [bind].
    rewrite normalise_non_html_title. reflexivity.
Qed.

End Fetch.

(** *** Concrete runs *)

Lemma fetch_url_http_error_404 :
  fetch_url UrlParse.no_host_validation "https://httpbin.org/status/404" 1
    (Return (plain_response 404 (Some "text/html"))) 3
  = Return (mkResult "https://httpbin.org/status/404" "Error: HTTP 404" 404 2
              "httpbin.org").
Proof.
  apply (fetch_url_http_error UrlParse.no_host_validation
           "https://httpbin.org/status/404" "httpbin.org" 1
           (plain_response 404 (Some "text/html")) 3).
  - reflexivity.
  - simpl. lia.
Defined.

Lemma fetch_url_keeps_url_and_domain_timeout :
  exists r,
    fetch_url UrlParse.no_host_validation "https://httpbin.org/delay/999" 1
      (Raise (mkExc TimeoutError "")) 2 = Return r
    /\ url r = "https://httpbin.org/delay/999" /\ domain r = "httpbin.org".
Proof.
  apply (proj1 (fetch_url_keeps_url_and_domain UrlParse.no_host_validation
                  "https://httpbin.org/delay/999" 1
                  (Raise (mkExc TimeoutError "")) 2) "httpbin.org").
  reflexivity.
Defined.

Lemma fetch_url_html_title_example :
  fetch_url UrlParse.no_host_validation "https://example.com" 1
    (Return (html_page example_page)) 3
  = Return (mkResult "https://example.com" "Example" 200 2 "example.com").
Proof.
  apply (fetch_url_html_title UrlParse.no_host_validation
           "https://example.com" "example.com" 1 (html_page example_page)
           "text/html; charset=utf-8" example_page 3); reflexivity.
Defined.

(** C7 as stated fails: a title element without text gives the title
    [None], not [No title found]. *)
Lemma empty_title_is_not_reported_missing :
  Soup.title empty_title_page = Some (Soup.Tag "title" [])
  /\ exists r,
      fetch_url UrlParse.no_host_validation "https://example.com" 1
        (Return (html_page empty_title_page)) 3 = Return r
      /\ status r = 200%Z /\ title r = "None"
      /\ title r <> "No title found".
Proof.
  split; [reflexivity|]. eexists. split; [reflexivity|].
  repeat split. discriminate.
Qed.

Lemma fetch_url_non_html_title_png :
  fetch_url UrlParse.no_host_validation "https://httpbin.org/image/png" 1
    (Return (plain_response 200 (Some "image/png"))) 3
  = Return (mkResult "https://httpbin.org/image/png"
              "Non-HTML content: image/png" 200 2 "httpbin.org").
Proof.
  apply (proj2 (fetch_url_non_html_title UrlParse.no_host_validation
                  "https://httpbin.org/image/png" "httpbin.org" 1
                  (plain_response 200 (Some "image/png")) 3
                  eq_refl eq_refl eq_refl)).
  reflexivity.
Defined.

Example fetch_url_json_title_example :
  fetch_url UrlParse.no_host_validation "https://httpbin.org/json" 1
    (Return (json_response "{'slideshow': {'title': 'Sample'}}")) 3
  = Return (mkResult "https://httpbin.org/json"
              "JSON Response: 34 characters" 200 2 "httpbin.org").
Proof. reflexivity. Qed.

Example fetch_url_malformed_json_example :
  fetch_url UrlParse.no_host_validation "https://httpbin.org/json" 1
    (Return (mkResponse 200 (Some "application/json") (Return [])
               (Raise (mkExc ValueError "Expecting value: line 1 column 1 (char 0)"))))
    3
  = Return (mkResult "https://httpbin.org/json"
              "Error: Expecting value: line 1 column 1 (char 0)" (-1) 2
              "httpbin.org").
Proof. reflexivity. Qed.

(** C8 as stated fails: without a Content-Type header the title is not
    [Non-HTML content: ] followed by the empty content type; the trailing
    blank is trimmed away. *)
Lemma missing_content_type_title_is_trimmed :
  exists r,
    fetch_url UrlParse.no_host_validation "https://example.com/data" 1
      (Return (plain_response 200 None)) 3 = Return r
    /\ title r = "Non-HTML content:"
    /\ title r <> "Non-HTML content: " ++ default "" (@None string).
Proof.
  eexists. split; [reflexivity|]. split; [reflexivity | discriminate].
Qed.

End FetchSpec.

(** ** The summary *)

Module SummarySpec.
Import Crawler.

Lemma count_status_split p results :
  count_status p results + count_status (fun s => negb (p s)) results
  = length results.
Proof.
  induction results as [|r rest IH]; simpl; [reflexivity|].
  destruct (p (status r)); simpl; lia.
Qed.

Lemma count_successes results :
  count_status (fun s => (s =? 200)%Z) results
  = length (filter (fun r => status r = 200%Z) results).
Proof.
  induction results as [|r rest IH]; [reflexivity|].
  simpl. rewrite filter_cons.
  case_decide as Hr; destruct (Z.eqb_spec (status r) 200); simpl; try lia.
Qed.

Lemma count_failures results :
  count_status (fun s => negb (s =? 200)%Z) results
  = length (filter (fun r => status r <> 200%Z) results).
Proof.
  induction results as [|r rest IH]; [reflexivity|].
  simpl. rewrite filter_cons.
  case_decide as Hr; destruct (Z.eqb_spec (status r) 200); simpl;
    try lia; contradiction.
Qed.

Lemma summary_returns urls results t :
  summary urls results t
  = Return (mkSummary (length urls)
              (count_status (fun s => (s =? 200)%Z) results)
              (count_status (fun s => negb (s =? 200)%Z) results)
              t
              match urls with
              | [] => PyInt 0
              | _ :: _ => PyFloat (t / float_of_len (length urls))%float
              end).
Proof. destruct urls; reflexivity. Qed.

(** C3: with one result per URL, the two counters of the summary add up
    to [total_urls]; the first counts the results with status 200, the
    second those with any other status. *)
Theorem summary_counts_add_up urls results t :
  length results = length urls ->
  exists s,
    summary urls results t = Return s
    /\ successful_fetches s
       = length (filter (fun r => status r = 200%Z) results)
    /\ failed_fetches s
       = length (filter (fun r => status r <> 200%Z) results)
    /\ successful_fetches s + failed_fetches s = total_urls s.
Proof.
  intros Hlen. eexists. split; [apply summary_returns|]. simpl.
  split; [|split].
  - apply count_successes.
  - apply count_failures.
  - rewrite <- Hlen. apply count_status_split.
Qed.

Lemma summary_counts_add_up_scenario :
  exists s,
    summary ["https://example.com"; "https://httpbin.org/status/500";
             "https://httpbin.org/delay/999"]
      [mkResult "https://example.com" "Example Domain" 200 1 "example.com";
       mkResult "https://httpbin.org/status/500" "Error: HTTP 500" 500 1
         "httpbin.org";
       mkResult "https://httpbin.org/delay/999" "Error: Timeout" (-1) 1
         "httpbin.org"] 2
    = Return s
    /\ successful_fetches s = 1
    /\ failed_fetches s = 2
    /\ successful_fetches s + failed_fetches s = total_urls s.
Proof.
  apply (summary_counts_add_up
           ["https://example.com"; "https://httpbin.org/status/500";
            "https://httpbin.org/delay/999"]
           [mkResult "https://example.com" "Example Domain" 200 1 "example.com";
            mkResult "https://httpbin.org/status/500" "Error: HTTP 500" 500 1
              "httpbin.org";
            mkResult "https://httpbin.org/delay/999" "Error: Timeout" (-1) 1
              "httpbin.org"] 2).
  reflexivity.
Defined.

(** C4: the summary is always computed, no division by zero is raised;
    the average is [total_time / total_urls] when there is a URL and the
    integer [0] when there is none. *)
Theorem summary_average_is_guarded urls results t :
  exists s,
    summary urls results t = Return s
    /\ total_urls s = length urls
    /\ total_time s = t
    /\ (0 < total_urls s ->
        average_time_per_url s
        = PyFloat (total_time s / float_of_len (total_urls s))%float)
    /\ (total_urls s = 0 -> average_time_per_url s = PyInt 0).
Proof.
  eexists. split; [apply summary_returns|]. simpl.
  repeat split.
  - destruct urls; simpl; [lia | reflexivity].
  - destruct urls; simpl; [reflexivity | discriminate].
Qed.

Lemma truediv_by_zero_raises t :
  truediv t 0 = Raise (mkExc ZeroDivisionError "float division by zero").
Proof. reflexivity. Qed.

Lemma summary_average_examples :
  (exists s, summary ["a"; "b"] [] 3 = Return s
             /\ average_time_per_url s = PyFloat 1.5)
  /\ (exists s, summary [] [] 3 = Return s
                /\ average_time_per_url s = PyInt 0).
Proof. split; eexists; split; reflexivity. Qed.

End SummarySpec.

(** ** The event loop *)

Module LoopSpec.
Import Crawler.

Lemma held_cons t ts : held (t :: ts) = slot t + held ts.
Proof. destruct t; reflexivity. Qed.

Lemma held_insert (ts : list Task) i t t' :
  ts !! i = Some t ->
  held (<[i := t']> ts) + slot t = held ts + slot t'.
Proof.
  revert i. induction ts as [|a ts IH]; intros [|i] H; try discriminate.
  - injection H as ->. simpl insert. rewrite !held_cons. lia.
  - simpl in H. simpl insert. rewrite !held_cons.
    specialize (IH i H). lia.
Qed.

Lemma held_all_created {A} (l : list A) : held (map (fun _ => Created) l) = 0.
Proof. induction l; simpl; auto. Qed.

Section Loop.
Variable check_bracketed_host : string -> option string.
Local Abbreviation step := (Crawler.step check_bracketed_host).
Local Abbreviation run := (Crawler.run check_bracketed_host).
Local Abbreviation reaches := (Crawler.reaches check_bracketed_host).
Variable urls : list string.
Local Abbreviation balanced := (Crawler.balanced urls).
Local Abbreviation owes := (Crawler.owes check_bracketed_host urls).
Local Abbreviation explained := (Crawler.explained check_bracketed_host urls).

Lemma step_balanced n st ev st' :
  balanced n st -> step urls st ev = Some st' -> balanced n st'.
Proof.
  intros (Hsum & Hpos & Hlen). unfold Crawler.step, Crawler.balanced.
  destruct (gather_exc st); [discriminate|].
  destruct ev as [i now|i|i got now].
  - destruct (tasks st !! i) as [[| | | |]|] eqn:Ht; try discriminate.
    destruct (urls !! i) as [u|]; [|discriminate].
    destruct (UrlParse.urlparse_netloc _ u) as [d|e];
      intros [= <-]; simpl; rewrite length_insert;
      pose proof (held_insert _ _ _ (Waiting now d) Ht) as H1 ||
      pose proof (held_insert _ _ _ (Failed e) Ht) as H1;
      simpl in H1; repeat split; lia.
  - destruct (tasks st !! i) as [[|t0 d| | |]|] eqn:Ht; try discriminate.
    destruct (Z.ltb_spec 0 (sem_value st)); [|discriminate].
    intros [= <-]; simpl. rewrite length_insert.
    pose proof (held_insert _ _ _ (Fetching t0 d) Ht) as H1.
    simpl in H1. repeat split; lia.
  - destruct (tasks st !! i) as [[| |t0 d| |]|] eqn:Ht; try discriminate.
    destruct (urls !! i) as [u|]; [|discriminate].
    intros [= <-]; simpl. rewrite length_insert.
    pose proof (held_insert _ _ _ (Done (fetch_body u d t0 got now)) Ht) as H1.
    simpl in H1. repeat split; lia.
Qed.

Lemma run_balanced n schedule st st' :
  balanced n st -> run urls st schedule = Some st' -> balanced n st'.
Proof.
  revert st. induction schedule as [|ev rest IH]; intros st Hb; simpl.
  - intros [= <-]. exact Hb.
  - destruct (step urls st ev) as [st1|] eqn:E; [|discriminate].
    apply IH. eapply step_balanced; eauto.
Qed.

Lemma reaches_balanced n schedule st :
  reaches urls n schedule st -> balanced n st.
Proof.
  intros (st0 & Hinit & Hrun). unfold init in Hinit.
  destruct (Z.ltb_spec n 0); [discriminate|]. injection Hinit as <-.
  eapply run_balanced; [|exact Hrun].
  unfold Crawler.balanced; simpl. rewrite held_all_created, length_map.
  repeat split; lia.
Qed.

(** C5: in every state of a run of [crawl_urls] with limit [n], at most
    [n] tasks are inside [async with semaphore], and the counter of the
    semaphore is [n] less the slots in use.  A slot is taken only while
    the counter is positive.  Whatever the request of a task holding a
    slot ends with, a response or an exception, the task finishes with a
    result and its slot goes back to the semaphore. *)
Theorem semaphore_bounds_fetches n schedule st :
  reaches urls n schedule st ->
  (Z.of_nat (held (tasks st)) <= n)%Z
  /\ sem_value st = (n - Z.of_nat (held (tasks st)))%Z
  /\ (forall i st',
        step urls st (Acquire i) = Some st' ->
        (0 < sem_value st)%Z
        /\ sem_value st' = (sem_value st - 1)%Z
        /\ held (tasks st') = S (held (tasks st)))
  /\ (forall i t0 d got now,
        gather_exc st = None ->
        tasks st !! i = Some (Fetching t0 d) ->
        exists st' r,
          step urls st (Complete i got now) = Some st'
          /\ tasks st' !! i = Some (Done r)
          /\ sem_value st' = (sem_value st + 1)%Z
          /\ S (held (tasks st')) = held (tasks st)).
Proof.
  intros Hreach. pose proof (reaches_balanced _ _ _ Hreach) as Hbal.
  destruct Hbal as (Hsum & Hpos & Hlen).
  split; [lia|]. split; [lia|]. split.
  - intros i st'. unfold Crawler.step.
    destruct (gather_exc st); [discriminate|].
    destruct (tasks st !! i) as [[|t0 d| | |]|] eqn:Ht; try discriminate.
    destruct (Z.ltb_spec 0 (sem_value st)); [|discriminate].
    intros [= <-]; simpl.
    pose proof (held_insert _ _ _ (Fetching t0 d) Ht) as H1. simpl in H1.
    repeat split; lia.
  - intros i t0 d got now Hexc Ht. unfold Crawler.step. rewrite Hexc, Ht.
    destruct (urls !! i) as [u|] eqn:Hu.
    + eexists _, _. split; [reflexivity|]. simpl.
      pose proof (held_insert _ _ _ (Done (fetch_body u d t0 got now)) Ht) as H1.
      simpl in H1.
      split; [|split; [reflexivity | lia]].
      apply list_lookup_insert_eq. eapply lookup_lt_Some, Ht.
    + apply lookup_ge_None in Hu. apply lookup_lt_Some in Ht. lia.
Qed.

(** *** The results of [gather] *)

Local Ltac in_past :=
  rewrite elem_of_app;
  first [ left; assumption
        | right; apply list_elem_of_singleton; reflexivity ].

Lemma owes_later past ev exc i t :
  owes past exc i t -> owes (past ++ [ev])%list exc i t.
Proof.
  destruct t; simpl; auto.
  - intros (u & ? & ? & ?). exists u. repeat split; auto; in_past.
  - intros (u & ? & ? & ?). exists u. repeat split; auto; in_past.
  - intros (u & t0 & got & now & ? & ? & ? & ?).
    exists u, t0, got, now. repeat split; auto; in_past.
Qed.

Lemma owes_whatever_gather_says past exc i t :
  owes past None i t -> owes past exc i t.
Proof. destruct t; simpl; auto. Qed.

Lemma lookup_insert_cases (ts : list Task) (i : nat) t' (j : nat) t :
  <[i := t']> ts !! j = Some t ->
  (i = j /\ t = t') \/ (i <> j /\ ts !! j = Some t).
Proof.
  intros H. apply list_lookup_insert_Some in H.
  destruct H as [(-> & -> & _)|H]; auto.
Qed.

Lemma step_explained past st ev st' :
  explained past st -> step urls st ev = Some st' ->
  explained (past ++ [ev])%list st'.
Proof.
  intros Hex. unfold Crawler.step.
  destruct (gather_exc st) eqn:Hexc; [discriminate|].
  assert (Hold : forall exc j t, tasks st !! j = Some t ->
                   owes (past ++ [ev])%list exc j t).
  { intros exc j t Hj. apply owes_whatever_gather_says, owes_later.
    rewrite <- Hexc. apply Hex, Hj. }
  destruct ev as [i now|i|i got now].
  - destruct (tasks st !! i) as [[| | | |]|] eqn:Ht; try discriminate.
    destruct (urls !! i) as [u|] eqn:Hu; [|discriminate].
    destruct (UrlParse.urlparse_netloc _ u) as [d|e] eqn:Hd;
      intros [= <-] j t Hj; simpl in Hj;
      apply lookup_insert_cases in Hj as [(-> & ->)|(Hne & Hj)]; simpl;
      auto.
    exists u. repeat split; auto; in_past.
  - destruct (tasks st !! i) as [[|t0 d| | |]|] eqn:Ht; try discriminate.
    destruct (0 <? sem_value st)%Z; [|discriminate].
    intros [= <-] j t Hj; simpl in Hj;
      apply lookup_insert_cases in Hj as [(-> & ->)|(Hne & Hj)]; simpl;
      auto.
    exact (Hold None _ _ Ht).
  - destruct (tasks st !! i) as [[| |t0 d| |]|] eqn:Ht; try discriminate.
    destruct (urls !! i) as [u|] eqn:Hu; [|discriminate].
    intros [= <-] j t Hj; simpl in Hj;
      apply lookup_insert_cases in Hj as [(-> & ->)|(Hne & Hj)]; simpl;
      auto.
    destruct (Hold None _ _ Ht) as (u' & Hu' & Hd & Hin).
    assert (u' = u) as -> by congruence.
    exists u, t0, got, now. repeat split; auto; [in_past|].
    unfold fetch_url. rewrite Hd. reflexivity.
Qed.

Lemma run_explained past schedule st st' :
  explained past st -> run urls st schedule = Some st' ->
  explained (past ++ schedule)%list st'.
Proof.
  revert past st. induction schedule as [|ev rest IH]; intros past st Hex; simpl.
  - intros [= <-]. rewrite app_nil_r. exact Hex.
  - destruct (step urls st ev) as [st1|] eqn:E; [|discriminate].
    intros Hrun.
    replace (past ++ ev :: rest)%list with ((past ++ [ev]) ++ rest)%list
      by (rewrite <- app_assoc; reflexivity).
    eapply IH; [|exact Hrun]. eapply step_explained; eauto.
Qed.

Lemma reaches_explained n schedule st :
  reaches urls n schedule st -> explained schedule st.
Proof.
  intros (st0 & Hinit & Hrun). unfold init in Hinit.
  destruct (n <? 0)%Z; [discriminate|]. injection Hinit as <-.
  change schedule with ([] ++ schedule)%list.
  eapply run_explained; [|exact Hrun].
  intros i t Ht. simpl in Ht. rewrite list_lookup_fmap in Ht.
  destruct (urls !! i); [|discriminate]. injection Ht as <-. exact I.
Qed.

(** When [crawl_urls] returns, it returns one result per URL, and the
    result at a position is the one [fetch_url] produced for the URL at
    that position, from the events of that very task. *)
Lemma crawl_urls_results_in_input_order n schedule results :
  crawl_urls check_bracketed_host urls n schedule = Some (Return results) ->
  length results = length urls
  /\ forall i u, urls !! i = Some u ->
       exists r t0 got now,
         results !! i = Some r
         /\ Start i t0 ∈ schedule /\ Complete i got now ∈ schedule
         /\ fetch_url check_bracketed_host u t0 got now = Return r.
Proof.
  unfold crawl_urls. destruct (init _ n) as [st0|e] eqn:Hinit; [|discriminate].
  destruct (Crawler.run _ urls st0 schedule) as [st|] eqn:Hrun; [|discriminate].
  assert (Hreach : reaches urls n schedule st) by (exists st0; auto).
  pose proof (reaches_balanced _ _ _ Hreach) as (_ & _ & Hlen).
  pose proof (reaches_explained _ _ _ Hreach) as Hex.
  unfold gather. destruct (gather_exc st); [discriminate|].
  destruct (mapM task_result (tasks st)) as [rs|] eqn:Hm; [|discriminate].
  intros [= <-]. apply mapM_Some in Hm.
  split; [rewrite <- (Forall2_length _ _ _ Hm); exact Hlen|].
  intros i u Hu.
  destruct (lookup_lt_is_Some_2 (tasks st) i) as [t Ht].
  { rewrite Hlen. eapply lookup_lt_Some, Hu. }
  destruct (Forall2_lookup_l _ _ _ _ _ Hm Ht) as (r & Hr & Htr).
  destruct t as [| | |r'|]; try discriminate. injection Htr as ->.
  destruct (Hex _ _ Ht) as (u' & t0 & got & now & Hu' & ? & ? & ?).
  assert (u' = u) as -> by congruence.
  exists r, t0, got, now. auto.
Qed.

(** *** Progress *)

Lemma remaining_insert (ts : list Task) i t t' :
  ts !! i = Some t ->
  remaining (<[i := t']> ts) + pending t = remaining ts + pending t'.
Proof.
  revert i. induction ts as [|a ts IH]; intros [|i] H; try discriminate.
  - injection H as ->. simpl. lia.
  - simpl in H. simpl. specialize (IH i H). lia.
Qed.

Lemma step_consumes st ev st' :
  step urls st ev = Some st' ->
  remaining (tasks st') < remaining (tasks st).
Proof.
  unfold Crawler.step. destruct (gather_exc st); [discriminate|].
  destruct ev as [i now|i|i got now].
  - destruct (tasks st !! i) as [[| | | |]|] eqn:Ht; try discriminate.
    destruct (urls !! i) as [u|]; [|discriminate].
    destruct (UrlParse.urlparse_netloc _ u) as [d|e]; intros [= <-]; simpl.
    + pose proof (remaining_insert _ _ _ (Waiting now d) Ht) as H.
      simpl in H. lia.
    + pose proof (remaining_insert _ _ _ (Failed e) Ht) as H.
      simpl in H. lia.
  - destruct (tasks st !! i) as [[|t0 d| | |]|] eqn:Ht; try discriminate.
    destruct (0 <? sem_value st)%Z; [|discriminate]. intros [= <-]; simpl.
    pose proof (remaining_insert _ _ _ (Fetching t0 d) Ht) as H.
    simpl in H. lia.
  - destruct (tasks st !! i) as [[| |t0 d| |]|] eqn:Ht; try discriminate.
    destruct (urls !! i) as [u|]; [|discriminate]. intros [= <-]; simpl.
    pose proof (remaining_insert _ _ _ (Done (fetch_body u d t0 got now)) Ht)
      as H.
    simpl in H. lia.
Qed.

Lemma run_consumes schedule st st' :
  run urls st schedule = Some st' ->
  length schedule + remaining (tasks st') <= remaining (tasks st).
Proof.
  revert st. induction schedule as [|ev rest IH]; intros st; simpl.
  - intros [= <-]. lia.
  - destruct (step urls st ev) as [st1|] eqn:E; [|discriminate].
    intros Hrun. apply IH in Hrun. apply step_consumes in E. lia.
Qed.

Lemma remaining_all_created {A} (l : list A) :
  remaining (map (fun _ => Created) l) = 3 * length l.
Proof. induction l; simpl; lia. Qed.

(** No schedule is longer than three events per URL. *)
Lemma schedule_is_bounded n schedule st :
  reaches urls n schedule st -> length schedule <= 3 * length urls.
Proof.
  intros (st0 & Hinit & Hrun). unfold init in Hinit.
  destruct (n <? 0)%Z; [discriminate|]. injection Hinit as <-.
  apply run_consumes in Hrun. simpl in Hrun.
  rewrite remaining_all_created in Hrun. lia.
Qed.

Lemma held_positive (ts : list Task) :
  0 < held ts -> exists i t0 d, ts !! i = Some (Fetching t0 d).
Proof.
  induction ts as [|t ts IH]; simpl; [lia|].
  destruct t as [| |t0 d| |];
    try (intros H; destruct (IH H) as (i & t0 & d & Hi);
         exists (S i), t0, d; exact Hi).
  intros _. exists 0, t0, d. reflexivity.
Qed.

Lemma mapM_task_result_None (ts : list Task) :
  mapM task_result ts = None ->
  exists i t, ts !! i = Some t /\ task_result t = None.
Proof.
  induction ts as [|t ts IH]; [discriminate|].
  destruct (task_result t) as [r|] eqn:Hr.
  - destruct (mapM task_result ts) as [rs|] eqn:Hm.
    + simpl. rewrite Hr, Hm. discriminate.
    + intros _. destruct (IH eq_refl) as (i & t' & Hi & Ht').
      exists (S i), t'. auto.
  - intros _. exists 0, t. auto.
Qed.

(** With at least one slot, the loop is never stuck while [gather]
    waits: some task can start, take a slot, or complete. *)
Lemma pending_gather_can_step n schedule st :
  (1 <= n)%Z ->
  reaches urls n schedule st -> gather st = None ->
  exists ev st', step urls st ev = Some st'.
Proof.
  intros Hn Hreach Hwait.
  pose proof (reaches_balanced _ _ _ Hreach) as (Hsum & Hpos & Hlen).
  pose proof (reaches_explained _ _ _ Hreach) as Hex.
  unfold gather in Hwait.
  destruct (gather_exc st) eqn:Hexc; [discriminate|].
  destruct (mapM task_result (tasks st)) eqn:Hm; [discriminate|].
  destruct (mapM_task_result_None _ Hm) as (i & t & Hi & Ht).
  assert (Hcomplete : forall j t0 d,
             tasks st !! j = Some (Fetching t0 d) ->
             exists ev st', step urls st ev = Some st').
  { intros j t0 d Hj.
    destruct (lookup_lt_is_Some_2 urls j) as [u Hu].
    { rewrite <- Hlen. eapply lookup_lt_Some, Hj. }
    exists (Complete j (Raise (mkExc TimeoutError "")) 0%float).
    unfold Crawler.step. rewrite Hexc, Hj, Hu. eauto. }
  destruct (lookup_lt_is_Some_2 urls i) as [u Hu].
  { rewrite <- Hlen. eapply lookup_lt_Some, Hi. }
  destruct t as [|t0 d|t0 d|r|e].
  - exists (Start i 0%float). unfold Crawler.step. rewrite Hexc, Hi, Hu.
    destruct (UrlParse.urlparse_netloc _ u); eauto.
  - destruct (Z.ltb_spec 0 (sem_value st)) as [Hfree|Hfull].
    + exists (Acquire i). unfold Crawler.step. rewrite Hexc, Hi.
      destruct (Z.ltb_spec 0 (sem_value st)); [eauto | lia].
    + destruct (held_positive (tasks st)) as (j & t1 & d1 & Hj); [lia|].
      eapply Hcomplete, Hj.
  - eapply Hcomplete, Hi.
  - discriminate.
  - specialize (Hex _ _ Hi). simpl in Hex. congruence.
Qed.

(** A URL that [urlparse] rejects keeps [crawl_urls] from returning any
    results, under every schedule. *)
Lemma crawl_urls_never_returns_past_parse_error i u e n schedule results :
  urls !! i = Some u ->
  UrlParse.urlparse_netloc check_bracketed_host u = Raise e ->
  crawl_urls check_bracketed_host urls n schedule <> Some (Return results).
Proof.
  intros Hu He Hret.
  destruct (crawl_urls_results_in_input_order _ _ _ Hret) as (_ & H).
  destruct (H i u Hu) as (r & t0 & got & now & _ & _ & _ & Hf).
  unfold fetch_url in Hf. rewrite He in Hf. discriminate.
Qed.

End Loop.

(** *** Concrete runs *)

Lemma semaphore_bounds_fetches_two_slots :
  exists st,
    Crawler.reaches UrlParse.no_host_validation scenario_urls 2
      two_slots_taken st
    /\ sem_value st = 0%Z
    /\ Crawler.step UrlParse.no_host_validation scenario_urls st (Acquire 1)
       = None
    /\ (Z.of_nat (held (tasks st)) <= 2)%Z.
Proof.
  eexists. split; [eexists; split; reflexivity|].
  split; [reflexivity|]. split; [reflexivity|].
  apply (semaphore_bounds_fetches UrlParse.no_host_validation scenario_urls 2
           two_slots_taken).
  eexists; split; reflexivity.
Defined.

(** C1: one URL that [urlparse] rejects makes [gather] pass the
    [ValueError] of its task on, and [crawl_urls] ends with that
    exception instead of a list of results: here with two input URLs, as
    soon as both tasks have started, and under no schedule with a list. *)
Theorem crawl_urls_aborts_on_parse_error :
  (forall t0 t1,
      crawl_urls UrlParse.no_host_validation
        ["https://example.com"; "http://["] 10 [Start 0 t0; Start 1 t1]
      = Some (Raise UrlParse.invalid_ipv6))
  /\ (forall schedule results,
        crawl_urls UrlParse.no_host_validation
          ["https://example.com"; "http://["] 10 schedule
        <> Some (Return results)).
Proof.
  split; [reflexivity|]. intros schedule results.
  apply (crawl_urls_never_returns_past_parse_error
           UrlParse.no_host_validation _ 1 "http://[" UrlParse.invalid_ipv6);
    reflexivity.
Qed.

(** The scenario of the specification, run to its end. *)
Example crawl_urls_scenario :
  crawl_urls UrlParse.no_host_validation scenario_urls 2 scenario_schedule
  = Some (Return
      [mkResult "https://example.com" "Example" 200 0.5 "example.com";
       mkResult "https://httpbin.org/status/500" "Error: HTTP 500" 500 0.75
         "httpbin.org";
       mkResult "https://httpbin.org/delay/999" "Error: Timeout" (-1) 1.5
         "httpbin.org"]).
Proof. reflexivity. Qed.

(** Without a slot the third task cannot start its request. *)
Example crawl_urls_third_task_waits :
  crawl_urls UrlParse.no_host_validation scenario_urls 2
    [Start 0 0%float; Acquire 0; Start 1 0%float; Acquire 1; Start 2 0%float;
     Acquire 2]
  = None.
Proof. reflexivity. Qed.

(** A negative limit is refused by the semaphore before any task exists. *)
Example crawl_urls_negative_limit schedule :
  crawl_urls UrlParse.no_host_validation scenario_urls (-1) schedule
  = Some (Raise semaphore_error).
Proof. reflexivity. Qed.

End LoopSpec.

(** ** The domain of a result *)

Module UrlFacts.
Import PyStr UrlParse.

Lemma take_app_length a b : take (String.length a) (a ++ b) = a.
Proof. induction a as [|c a IH]; simpl; [destruct b|]; congruence. Qed.

Lemma drop_app_length a b : drop (String.length a) (a ++ b) = b.
Proof. induction a as [|c a IH]; simpl; auto. Qed.

Lemma remove_char_app c a b :
  remove_char c (a ++ b) = remove_char c a ++ remove_char c b.
Proof.
  induction a as [|d a IH]; simpl; [reflexivity|].
  destruct (Ascii.eqb c d); simpl; congruence.
Qed.

Lemma remove_char_absent c s : contains_char c s = false -> remove_char c s = s.
Proof.
  induction s as [|d s IH]; simpl; [reflexivity|].
  destruct (Ascii.eqb c d); [discriminate|]. intros H. f_equal. auto.
Qed.

Lemma find_app_absent c a b :
  contains_char c a = false ->
  find c (a ++ b)
  = match find c b with
    | Some i => Some (String.length a + i)
    | None => None
    end.
Proof.
  induction a as [|d a IH]; simpl.
  - destruct (find c b); reflexivity.
  - destruct (Ascii.eqb c d); [discriminate|]. intros H. rewrite IH by exact H.
    destruct (find c b); reflexivity.
Qed.

Lemma find_head c s : find c (String c s) = Some 0.
Proof. simpl. rewrite Ascii.eqb_refl. reflexivity. Qed.

Lemma forallb_absent (p : ascii -> bool) c s :
  p c = false -> forallb p s = true -> contains_char c s = false.
Proof.
  intros Hc. induction s as [|d s IH]; simpl; [reflexivity|].
  intros [Hd Hs]%andb_true_iff.
  destruct (Ascii.eqb_spec c d) as [->|]; [congruence | auto].
Qed.

(** A scheme holds none of the characters that [urlsplit] strips, removes
    or splits at. *)
Lemma scheme_char_facts :
  is_scheme_char ":" = false /\ is_scheme_char "009" = false
  /\ is_scheme_char "010" = false /\ is_scheme_char "013" = false.
Proof. repeat split. Qed.

Lemma authority_char_facts :
  is_authority_char "/" = false /\ is_authority_char "?" = false
  /\ is_authority_char "#" = false /\ is_authority_char "[" = false
  /\ is_authority_char "]" = false /\ is_authority_char "009" = false
  /\ is_authority_char "010" = false /\ is_authority_char "013" = false.
Proof. repeat split. Qed.

Lemma alpha_not_stripped c :
  is_ascii_alpha c = true -> is_c0_control_or_space c = false.
Proof.
  unfold is_ascii_alpha, is_c0_control_or_space.
  destruct (Nat.leb_spec (code c) 32) as [H|H]; [|reflexivity].
  destruct (Nat.leb_spec 65 (code c)), (Nat.leb_spec 97 (code c));
    simpl; try discriminate; lia.
Qed.

Lemma length_app a b :
  String.length (a ++ b) = String.length a + String.length b.
Proof. induction a; simpl; auto. Qed.

Lemma find_from_authority c auth rest :
  contains_char c auth = false ->
  find_from c ("//" ++ auth ++ rest) 2
  = match find c rest with
    | Some i => Some (2 + (String.length auth + i))
    | None => None
    end.
Proof.
  intros H. unfold find_from.
  change (drop 2 ("//" ++ auth ++ rest)) with (auth ++ rest).
  rewrite find_app_absent by exact H. destruct (find c rest); reflexivity.
Qed.

Lemma starts_component_found rest :
  starts_component rest = true ->
  rest = ""
  \/ find "/" rest = Some 0 \/ find "?" rest = Some 0 \/ find "#" rest = Some 0.
Proof.
  destruct rest as [|c rest]; [auto|]. simpl.
  destruct (Ascii.eqb_spec c "/") as [->|_]; [auto|].
  destruct (Ascii.eqb_spec c "?") as [->|_]; [auto|].
  destruct (Ascii.eqb_spec c "#") as [->|_]; [auto 6 | discriminate].
Qed.

(** [_splitnetloc] cuts the authority out of [//authority] followed by
    the rest of the URL. *)
Lemma splitnetloc_authority auth rest :
  forallb is_authority_char auth = true ->
  starts_component rest = true ->
  splitnetloc ("//" ++ auth ++ rest) 2 = (auth, rest).
Proof.
  intros Hauth Hrest.
  pose proof authority_char_facts as (Hs & Hq & Hh & _).
  unfold splitnetloc.
  rewrite !find_from_authority by (eapply forallb_absent; eauto).
  assert (Hlen : String.length ("//" ++ auth ++ rest)
                 = 2 + (String.length auth + String.length rest)).
  { change ("//" ++ auth ++ rest) with (String "/" (String "/" (auth ++ rest))).
    simpl. rewrite length_app. reflexivity. }
  rewrite Hlen.
  assert (Hcut : forall delim,
             delim = 2 + String.length auth ->
             (slice ("//" ++ auth ++ rest) 2 delim,
              drop delim ("//" ++ auth ++ rest)) = (auth, rest)).
  { intros delim ->. unfold slice.
    change (drop (2 + String.length auth) ("//" ++ auth ++ rest))
      with (drop (String.length auth) (auth ++ rest)).
    change (drop 2 ("//" ++ auth ++ rest)) with (auth ++ rest).
    replace (2 + String.length auth - 2) with (String.length auth) by lia.
    rewrite take_app_length, drop_app_length. reflexivity. }
  apply Hcut.
  destruct (starts_component_found _ Hrest) as [->|Hfound].
  - simpl. lia.
  - destruct (find "/" rest) as [i|], (find "?" rest) as [j|],
      (find "#" rest) as [k|];
      destruct Hfound as [H|[H|H]]; try discriminate;
      injection H as ->; lia.
Qed.

Lemma drop_past_separator a c b :
  drop (S (String.length a)) (a ++ String c b) = b.
Proof. induction a; simpl; auto. Qed.

Lemma starts_component_remove c rest :
  contains_char c "/?#" = false ->
  starts_component rest = true ->
  starts_component (remove_char c rest) = true.
Proof.
  intros Hc. destruct rest as [|d rest]; [reflexivity|]. simpl.
  destruct (Ascii.eqb_spec c d) as [->|_]; [|auto].
  simpl in Hc. congruence.
Qed.

Lemma remove_char_keeps_shape c sch auth rest :
  is_scheme_char c = false -> is_authority_char c = false ->
  contains_char c "://" = false ->
  forallb is_scheme_char sch = true ->
  forallb is_authority_char auth = true ->
  remove_char c (sch ++ "://" ++ auth ++ rest)
  = sch ++ "://" ++ auth ++ remove_char c rest.
Proof.
  intros Hs Ha Hsep Hsch Hauth. rewrite !remove_char_app.
  rewrite (remove_char_absent c sch)
    by exact (forallb_absent is_scheme_char c sch Hs Hsch).
  rewrite (remove_char_absent c auth)
    by exact (forallb_absent is_authority_char c auth Ha Hauth).
  rewrite (remove_char_absent c "://") by exact Hsep. reflexivity.
Qed.

Example urlsplit_full :
  urlsplit no_host_validation "https://user:pw@Example.com:8080/a/b?x=1#frag"
  = Return (mkSplit "https" "user:pw@Example.com:8080" "/a/b" "x=1" "frag").
Proof. reflexivity. Qed.

Example urlsplit_without_slashes :
  urlsplit no_host_validation "example.com/a?b"
  = Return (mkSplit "" "" "example.com/a" "b" "").
Proof. reflexivity. Qed.

Example urlsplit_strips_and_lowers :
  urlsplit no_host_validation "  HTTP://a.b?q#f/"
  = Return (mkSplit "http" "a.b" "" "q" "f/").
Proof. reflexivity. Qed.

Example urlsplit_text_after_bracket :
  urlsplit no_host_validation "//[::1]x/p" = Raise invalid_ipv6.
Proof. reflexivity. Qed.

Example urlsplit_unmatched_bracket check :
  urlsplit check "http://[" = Raise invalid_ipv6.
Proof. reflexivity. Qed.







Section Netloc.
Variable check_bracketed_host : string -> option string.


(** For a URL written [scheme://authority] and then nothing, a path, a
    query or a fragment, [urlparse(url).netloc] is the authority. *)
Lemma urlparse_netloc_authority sch auth rest :
  is_scheme sch = true ->
  forallb is_authority_char auth = true ->
  starts_component rest = true ->
  urlparse_netloc check_bracketed_host (sch ++ "://" ++ auth ++ rest)
  = Return auth.
Proof.
  intros Hsch Hauth Hrest.
  destruct sch as [|c0 sch']; [discriminate|].
  apply andb_true_iff in Hsch as [Halpha Hsch].
  pose proof scheme_char_facts as (Hcolon & Htab & Hlf & Hcr).
  pose proof authority_char_facts as (_ & _ & _ & Hopen & Hclose & Atab & Alf & Acr).
  set (sch := String c0 sch') in *.
  unfold urlparse_netloc, urlsplit. cbv zeta.
  assert (Hstrip : lstrip_by is_c0_control_or_space (sch ++ "://" ++ auth ++ rest)
                   = sch ++ "://" ++ auth ++ rest).
  { unfold sch. simpl. rewrite (alpha_not_stripped _ Halpha). reflexivity. }
  rewrite Hstrip.
  rewrite (remove_char_keeps_shape "009") by (auto; reflexivity).
  rewrite (remove_char_keeps_shape "013") by (auto; reflexivity).
  rewrite (remove_char_keeps_shape "010") by (auto; reflexivity).
  set (rest' := remove_char "010" (remove_char "013" (remove_char "009" rest))).
  assert (Hrest' : starts_component rest' = true).
  { unfold rest'. repeat apply starts_component_remove; auto. }
  clearbody rest'.
  assert (Hfind : find ":" (sch ++ "://" ++ auth ++ rest')
                  = Some (String.length sch)).
  { rewrite find_app_absent
      by exact (forallb_absent is_scheme_char ":" sch Hcolon Hsch).
    change ("://" ++ auth ++ rest') with (String ":" ("//" ++ auth ++ rest')).
    rewrite find_head. f_equal. lia. }
  rewrite Hfind, take_app_length, Hsch.
  change ("://" ++ auth ++ rest') with (String ":" ("//" ++ auth ++ rest')).
  rewrite drop_past_separator.
  replace ((0 <? String.length sch)
           && match sch ++ String ":" ("//" ++ auth ++ rest') with
              | "" => false
              | String c _ => is_ascii_alpha c
              end && true) with true
    by (unfold sch; simpl; rewrite Halpha; reflexivity).
  cbv beta iota.
  change (take 2 ("//" ++ auth ++ rest')) with "//".
  change ("//" =? "//")%string with true. cbv beta iota.
  rewrite (splitnetloc_authority _ _ Hauth Hrest').
  rewrite (forallb_absent is_authority_char "[" auth Hopen Hauth).
  rewrite (forallb_absent is_authority_char "]" auth Hclose Hauth).
  cbn [andb orb negb bind].
  destruct (split_once "#" rest') as [url1 fragment1].
  destruct (split_once "?" url1) as [url2 query2]. reflexivity.
Qed.


End Netloc.


(** A tab inside the host is gone from the domain; a bracket without its
    partner keeps [fetch_url] from returning. *)
Example fetch_url_domain_examples :
  (exists r,
      Crawler.fetch_url no_host_validation
        ("http://exa" ++ String "009" "mple.com/x") 1
        (Return (Crawler.plain_response 500 None)) 3 = Return r
      /\ Crawler.domain r = "example.com")
  /\ (exists r,
        Crawler.fetch_url no_host_validation "http://[::1]:8080/x" 1
          (Return (Crawler.plain_response 500 None)) 3 = Return r
        /\ Crawler.domain r = "[::1]:8080")
  /\ Crawler.fetch_url no_host_validation "http://[::1/x" 1
       (Return (Crawler.plain_response 500 None)) 3
     = Raise invalid_ipv6.
Proof.
  split; [|split]; [eexists; split; reflexivity.. | reflexivity].
Qed.


End UrlFacts.

(** ** Reading and writing the URL file *)

Module FileFacts.
Import PyStr TextFile Main.

Lemma rstrip_by_idempotent p s : rstrip_by p (rstrip_by p s) = rstrip_by p s.
Proof.
  induction s as [|c s IH]; [reflexivity|]. simpl.
  destruct (rstrip_by p s) as [|d r] eqn:E.
  - destruct (p c) eqn:Hc; simpl; [reflexivity|]. rewrite Hc. reflexivity.
  - change (rstrip_by p (String c (String d r)))
      with (match rstrip_by p (String d r) with
            | EmptyString => if p c then EmptyString else String c EmptyString
            | r' => String c r'
            end).
    rewrite IH. reflexivity.
Qed.

Lemma lstrip_by_idempotent p s : lstrip_by p (lstrip_by p s) = lstrip_by p s.
Proof.
  induction s as [|c s IH]; [reflexivity|]. simpl.
  destruct (p c) eqn:Hc; [exact IH|]. simpl. rewrite Hc. reflexivity.
Qed.

Lemma lstrip_by_head p c s : p c = false -> lstrip_by p (String c s) = String c s.
Proof. intros H. simpl. rewrite H. reflexivity. Qed.

Lemma lstrip_by_shape p s :
  lstrip_by p s = EmptyString
  \/ exists c s', lstrip_by p s = String c s' /\ p c = false.
Proof.
  induction s as [|c s IH]; [auto|]. simpl.
  destruct (p c) eqn:Hc; [exact IH|]. right. eauto.
Qed.

Lemma rstrip_by_keeps_head p c s :
  p c = false -> exists r, rstrip_by p (String c s) = String c r.
Proof.
  intros Hc. simpl. destruct (rstrip_by p s); [rewrite Hc|]; eauto.
Qed.

(** [strip] leaves nothing to strip. *)
Lemma strip_trimmed s : trimmed (strip s).
Proof.
  unfold trimmed, strip. split; [|apply rstrip_by_idempotent].
  destruct (lstrip_by_shape is_space s) as [->|(c & s' & -> & Hc)];
    [reflexivity|].
  destruct (rstrip_by_keeps_head is_space c s' Hc) as [r ->].
  apply lstrip_by_head, Hc.
Qed.

Lemma trimmed_strip s : trimmed s -> strip s = s.
Proof. intros [Hl Hr]. unfold strip. rewrite Hl. exact Hr. Qed.

Lemma strip_idempotent s : strip (strip s) = strip s.
Proof. apply trimmed_strip, strip_trimmed. Qed.

Lemma lstrip_by_keeps_absent p c s :
  contains_char c s = false -> contains_char c (lstrip_by p s) = false.
Proof.
  induction s as [|d s IH]; [reflexivity|]. simpl.
  destruct (Ascii.eqb c d) eqn:E; [discriminate|].
  intros H. destruct (p d); [auto|]. simpl. rewrite E. exact H.
Qed.

Lemma rstrip_by_keeps_absent p c s :
  contains_char c s = false -> contains_char c (rstrip_by p s) = false.
Proof.
  induction s as [|d s IH]; [reflexivity|]. simpl.
  destruct (Ascii.eqb c d) eqn:E; [discriminate|].
  intros H. specialize (IH H).
  destruct (rstrip_by p s) as [|e r].
  - destruct (p d); simpl; [reflexivity|]. rewrite E. reflexivity.
  - simpl in *. rewrite E. exact IH.
Qed.

Lemma strip_keeps_absent c s :
  contains_char c s = false -> contains_char c (strip s) = false.
Proof.
  intros H. apply rstrip_by_keeps_absent, lstrip_by_keeps_absent, H.
Qed.

(** The line feed that ends a line is stripped with the rest. *)
Lemma strip_line_feed s : strip (s ++ String LF "") = strip s.
Proof.
  unfold strip. induction s as [|c s IH]; [reflexivity|].
  change (String c s ++ String LF "") with (String c (s ++ String LF "")).
  simpl lstrip_by. destruct (is_space c) eqn:Hc; [exact IH|].
  change (String c (s ++ String LF "")) with (String c s ++ String LF "").
  apply StripFacts.rstrip_by_app_blank. reflexivity.
Qed.

Lemma universal_newlines_no_cr pending s :
  contains_char CR (universal_newlines pending s) = false.
Proof.
  revert pending. induction s as [|c s IH]; intros pending; [reflexivity|].
  cbn [universal_newlines].
  destruct (Ascii.eqb_spec c CR) as [->|Hcr]; [cbn [contains_char]; apply IH|].
  destruct (Ascii.eqb c LF).
  - destruct pending; cbn [contains_char]; [apply IH|].
    change (Ascii.eqb CR LF) with false. apply IH.
  - cbn [contains_char].
    destruct (Ascii.eqb_spec CR c) as [<-|_]; [contradiction | apply IH].
Qed.

(** A line holds a line feed at its end only. *)
Lemma readlines_shape text :
  Forall (fun line =>
            exists body, contains_char LF body = false
                         /\ (line = body ++ String LF "" \/ line = body))
    (readlines text).
Proof.
  induction text as [|c text IH]; [constructor|]. cbn [readlines].
  destruct (Ascii.eqb_spec c LF) as [->|Hc].
  - constructor; [|exact IH]. exists "". auto.
  - assert (Hhead : forall body, contains_char LF body = false ->
                      contains_char LF (String c body) = false).
    { intros body Hb. cbn [contains_char].
      destruct (Ascii.eqb_spec LF c); [congruence | exact Hb]. }
    destruct (readlines text) as [|line rest].
    { constructor; [|constructor]. exists (String c ""). auto. }
    inversion IH as [|? ? (body & Hbody & Hline) Hrest]; subst.
    constructor; [|exact Hrest].
    exists (String c body). split; [auto|].
    destruct Hline as [->| ->]; auto.
Qed.

Lemma readlines_keeps_absent c text :
  contains_char c text = false ->
  Forall (fun line => contains_char c line = false) (readlines text).
Proof.
  induction text as [|d text IH]; [constructor|]. cbn [contains_char readlines].
  destruct (Ascii.eqb c d) eqn:E; [discriminate|]. intros H.
  specialize (IH H). destruct (Ascii.eqb_spec d LF) as [->|Hd].
  - constructor; [cbn [contains_char]; rewrite E; reflexivity | exact IH].
  - destruct (readlines text) as [|line rest].
    + constructor; [cbn [contains_char]; rewrite E; reflexivity | constructor].
    + inversion IH; subst.
      constructor; [cbn [contains_char]; rewrite E|]; assumption.
Qed.

Lemma loaded_lines_are_plain content :
  Forall plain_line (load_urls content).
Proof.
  unfold load_urls, iterate.
  pose proof (readlines_shape (universal_newlines false content)) as Hshape.
  pose proof (readlines_keeps_absent CR _
                (universal_newlines_no_cr false content)) as Hcr.
  induction (readlines (universal_newlines false content)) as [|line rest IH];
    [constructor|].
  inversion Hshape as [|? ? (body & Hbody & Hline) Hshape']; subst.
  inversion Hcr as [|? ? Hcr1 Hcr']; subst.
  simpl. destruct (String.eqb_spec (strip line) "") as [He|Hne]; simpl; [auto|].
  constructor; [|auto].
  split; [exact Hne|]. split; [apply strip_idempotent|]. split.
  - destruct Hline as [->| ->];
      [rewrite strip_line_feed|]; apply strip_keeps_absent, Hbody.
  - apply strip_keeps_absent, Hcr1.
Qed.

Lemma contains_char_app c a b :
  contains_char c (a ++ b) = contains_char c a || contains_char c b.
Proof.
  induction a as [|d a IH]; [reflexivity|]. cbn [append contains_char].
  destruct (Ascii.eqb c d); auto.
Qed.

(** Universal newlines undo the line separators of either platform. *)
Lemma with_linesep_read_back p s :
  contains_char CR s = false ->
  universal_newlines false (with_linesep p s) = s.
Proof.
  induction s as [|c s IH]; [reflexivity|]. cbn [contains_char with_linesep].
  destruct (Ascii.eqb_spec CR c) as [<-|Hcr]; [discriminate|]. intros H.
  destruct (Ascii.eqb_spec c LF) as [->|Hlf].
  - destruct p; cbn [linesep append universal_newlines].
    + change (Ascii.eqb LF CR) with false. rewrite Ascii.eqb_refl, IH; auto.
    + rewrite Ascii.eqb_refl. change (Ascii.eqb LF CR) with false.
      rewrite Ascii.eqb_refl, IH; auto.
  - cbn [universal_newlines].
    destruct (Ascii.eqb_spec c CR) as [->|_]; [congruence|].
    destruct (Ascii.eqb_spec c LF) as [->|_]; [congruence|].
    rewrite IH; auto.
Qed.

Lemma readlines_first_line u rest :
  contains_char LF u = false ->
  readlines ((u ++ String LF "") ++ rest)
  = (u ++ String LF "") :: readlines rest.
Proof.
  induction u as [|c u IH]; cbn [append contains_char readlines].
  - rewrite Ascii.eqb_refl. reflexivity.
  - destruct (Ascii.eqb_spec LF c) as [<-|Hc]; [discriminate|]. intros H.
    destruct (Ascii.eqb_spec c LF) as [->|_]; [congruence|].
    rewrite IH by exact H. reflexivity.
Qed.

Lemma url_lines_no_cr urls :
  Forall plain_line urls -> contains_char CR (Generator.url_lines urls) = false.
Proof.
  induction 1 as [|u urls (_ & _ & _ & Hcr) _ IH]; [reflexivity|].
  cbn [Generator.url_lines]. rewrite !contains_char_app, Hcr, IH.
  reflexivity.
Qed.

Lemma readlines_url_lines urls :
  Forall plain_line urls ->
  readlines (Generator.url_lines urls)
  = map (fun u => u ++ String LF "") urls.
Proof.
  induction 1 as [|u urls (_ & _ & Hlf & _) _ IH]; [reflexivity|].
  cbn [Generator.url_lines map]. rewrite readlines_first_line by exact Hlf.
  rewrite IH. reflexivity.
Qed.

Lemma iterate_url_lines p urls :
  Forall plain_line urls ->
  iterate (with_linesep p (Generator.url_lines urls))
  = map (fun u => u ++ String LF "") urls.
Proof.
  intros Hplain. unfold iterate.
  rewrite with_linesep_read_back by (apply url_lines_no_cr, Hplain).
  apply readlines_url_lines, Hplain.
Qed.

Lemma plain_lines_read_back p urls :
  Forall plain_line urls ->
  load_urls (with_linesep p (Generator.url_lines urls)) = urls.
Proof.
  intros Hplain. unfold load_urls. rewrite iterate_url_lines by exact Hplain.
  induction Hplain as [|u urls (Hne & Hstrip & _ & _) _ IH]; [reflexivity|].
  cbn [map List.filter]. rewrite strip_line_feed, Hstrip.
  destruct (String.eqb_spec u "") as [->|_]; [contradiction|].
  cbn [negb map]. rewrite strip_line_feed, Hstrip, IH. reflexivity.
Qed.

(** *** Encoding *)

Lemma append_assoc (a b c : string) : (a ++ b) ++ c = a ++ b ++ c.
Proof. induction a as [|x a IH]; [reflexivity|]. cbn. rewrite IH. reflexivity. Qed.

Lemma forallb_app (q : ascii -> bool) a b :
  forallb q (a ++ b) = forallb q a && forallb q b.
Proof.
  induction a as [|x a IH]; [reflexivity|]. cbn [append forallb].
  rewrite IH, andb_assoc. reflexivity.
Qed.

Lemma encode_from_success c n s :
  forallb (can_encode c) s = true -> exists bytes, encode_from c n s = Return bytes.
Proof.
  revert n. induction s as [|ch s IH]; intros n; [eexists; reflexivity|].
  cbn [forallb encode_from]. unfold can_encode at 1.
  destruct (encode_char c ch) as [b|]; [|discriminate]. cbn [andb].
  intros Hs. destruct (IH (S n) Hs) as [rest ->]. eexists. reflexivity.
Qed.

Lemma encode_from_failure c n s :
  forallb (can_encode c) s = false ->
  exists e, encode_from c n s = Raise e /\ exc_class e = ValueError.
Proof.
  revert n. induction s as [|ch s IH]; intros n; [discriminate|].
  cbn [forallb encode_from]. unfold can_encode at 1.
  destruct (encode_char c ch) as [b|]; [|eexists; split; reflexivity].
  cbn [andb]. intros Hs. destruct (IH (S n) Hs) as (e & -> & He).
  exists e. auto.
Qed.

Lemma encode_from_position c n m s bytes :
  encode_from c n s = Return bytes -> encode_from c m s = Return bytes.
Proof.
  revert n m bytes. induction s as [|ch s IH]; intros n m bytes; [auto|].
  cbn [encode_from]. destruct (encode_char c ch) as [b|]; [|discriminate].
  destruct (encode_from c (S n) s) as [rest|] eqn:E; [|discriminate].
  rewrite (IH _ (S m) _ E). auto.
Qed.

Lemma encode_from_app c n a b x y :
  encode_from c n a = Return x -> encode c b = Return y ->
  encode_from c n (a ++ b) = Return (x ++ y).
Proof.
  revert n x. induction a as [|ch a IH]; intros n x.
  - intros [= <-] Hb. exact (encode_from_position _ _ _ _ _ Hb).
  - cbn [append encode_from].
    destruct (encode_char c ch) as [bytes|]; [|discriminate].
    destruct (encode_from c (S n) a) as [rest|] eqn:E; [|discriminate].
    intros [= <-] Hb. rewrite (IH _ _ E Hb). cbn [bind].
    rewrite append_assoc. reflexivity.
Qed.

Lemma with_linesep_app p a b :
  with_linesep p (a ++ b) = with_linesep p a ++ with_linesep p b.
Proof.
  induction a as [|ch a IH]; [reflexivity|]. cbn [append with_linesep].
  rewrite IH. destruct (Ascii.eqb ch LF); [|reflexivity].
  rewrite append_assoc. reflexivity.
Qed.

Lemma with_linesep_encodable c p s :
  can_encode c LF = true -> can_encode c CR = true ->
  forallb (can_encode c) s = true ->
  forallb (can_encode c) (with_linesep p s) = true.
Proof.
  intros Hlf Hcr. induction s as [|ch s IH]; [reflexivity|].
  cbn [forallb with_linesep]. intros [Hch Hs]%andb_true_iff.
  destruct (Ascii.eqb ch LF).
  - rewrite forallb_app, (IH Hs).
    destruct p; cbn [linesep forallb]; rewrite ?Hlf, ?Hcr; reflexivity.
  - cbn [forallb]. rewrite Hch. auto.
Qed.

Lemma with_linesep_unencodable c p s :
  forallb (can_encode c) s = false ->
  forallb (can_encode c) (with_linesep p s) = false.
Proof.
  induction s as [|ch s IH]; [discriminate|].
  cbn [forallb with_linesep]. intros H.
  destruct (Ascii.eqb_spec ch LF) as [->|_].
  - rewrite forallb_app. destruct (can_encode c LF) eqn:Hlf.
    + rewrite (IH H). apply andb_false_r.
    + destruct p; cbn [linesep forallb]; rewrite Hlf;
        rewrite ?andb_false_r; reflexivity.
  - cbn [forallb]. destruct (can_encode c ch); [auto | reflexivity].
Qed.

(** The writes of the URLs, one after the other, give the bytes of the
    whole text. *)
Lemma urls_file_encodes c p urls bytes :
  Generator.urls_file c p urls = Return bytes ->
  encode c (with_linesep p (Generator.url_lines urls)) = Return bytes.
Proof.
  revert bytes. induction urls as [|u urls IH]; intros bytes; [auto|].
  cbn [Generator.urls_file Generator.url_lines]. unfold written.
  destruct (encode c (with_linesep p (u ++ String LF ""))) as [first|] eqn:E;
    [|discriminate].
  destruct (Generator.urls_file c p urls) as [more|]; [|discriminate].
  cbn [bind]. intros [= <-]. rewrite with_linesep_app.
  apply encode_from_app; auto.
Qed.

Lemma urls_file_success c p urls :
  can_encode c LF = true -> can_encode c CR = true ->
  Forall (fun u => forallb (can_encode c) u = true) urls ->
  exists bytes, Generator.urls_file c p urls = Return bytes.
Proof.
  intros Hlf Hcr. induction 1 as [|u urls Hu _ IH]; [eexists; reflexivity|].
  cbn [Generator.urls_file]. unfold written, encode.
  destruct (encode_from_success c 0 (with_linesep p (u ++ String LF "")))
    as [first ->].
  { apply with_linesep_encodable; auto.
    rewrite forallb_app, Hu. cbn [forallb]. rewrite Hlf. reflexivity. }
  destruct IH as [more ->]. eexists. reflexivity.
Qed.

Lemma urls_file_failure c p urls :
  Exists (fun u => forallb (can_encode c) u = false) urls ->
  exists e, Generator.urls_file c p urls = Raise e /\ exc_class e = ValueError.
Proof.
  induction urls as [|u urls IH]; intros Hex; [inversion Hex|].
  cbn [Generator.urls_file]. unfold written, encode.
  destruct (forallb (can_encode c) u) eqn:Hu.
  - destruct (encode_from c 0 (with_linesep p (u ++ String LF "")))
      as [first|e] eqn:E; cbn [bind].
    + destruct IH as (e & -> & He); [|exists e; auto].
      inversion Hex; subst; [congruence | assumption].
    + exists e. split; [reflexivity|].
      destruct (forallb (can_encode c) (with_linesep p (u ++ String LF "")))
        eqn:Hall.
      * destruct (encode_from_success c 0 _ Hall) as [b Hb]. congruence.
      * destruct (encode_from_failure c 0 _ Hall) as (e' & He' & Hclass).
        congruence.
  - destruct (encode_from_failure c 0 (with_linesep p (u ++ String LF "")))
      as (e & -> & He).
    { apply with_linesep_unencodable. rewrite forallb_app, Hu. reflexivity. }
    exists e. auto.
Qed.

Lemma urls_file_reads_back c p urls bytes :
  lossless c -> Forall plain_line urls ->
  Generator.urls_file c p urls = Return bytes ->
  load_urls_file c bytes = Return urls.
Proof.
  intros Hloss Hplain Hfile. unfold load_urls_file.
  rewrite (Hloss _ _ (urls_file_encodes _ _ _ _ Hfile)). cbn [bind].
  rewrite plain_lines_read_back by exact Hplain. reflexivity.
Qed.

(** What [load_urls] returns is made of characters of the file and of
    line feeds. *)
Lemma universal_newlines_forallb (q : ascii -> bool) pending s :
  q LF = true -> forallb q s = true ->
  forallb q (universal_newlines pending s) = true.
Proof.
  intros Hlf. revert pending.
  induction s as [|ch s IH]; intros pending; [reflexivity|].
  cbn [forallb universal_newlines]. intros [Hch Hs]%andb_true_iff.
  destruct (Ascii.eqb ch CR).
  { cbn [forallb]. rewrite Hlf. exact (IH true Hs). }
  destruct (Ascii.eqb ch LF).
  - destruct pending; [exact (IH false Hs)|].
    cbn [forallb]. rewrite Hlf. exact (IH false Hs).
  - cbn [forallb]. rewrite Hch. exact (IH false Hs).
Qed.

Lemma readlines_forallb (q : ascii -> bool) text :
  forallb q text = true ->
  Forall (fun line => forallb q line = true) (readlines text).
Proof.
  induction text as [|ch text IH]; [constructor|].
  cbn [forallb readlines]. intros [Hch Hs]%andb_true_iff.
  specialize (IH Hs). destruct (Ascii.eqb_spec ch LF) as [->|_].
  - constructor; [cbn [forallb]; rewrite Hch; reflexivity | exact IH].
  - destruct (readlines text) as [|line rest].
    + constructor; [cbn [forallb]; rewrite Hch; reflexivity | constructor].
    + inversion IH as [|? ? Hline Hrest]; subst.
      constructor; [cbn [forallb]; rewrite Hch; exact Hline | exact Hrest].
Qed.

Lemma lstrip_by_forallb (q : ascii -> bool) p s :
  forallb q s = true -> forallb q (lstrip_by p s) = true.
Proof.
  induction s as [|ch s IH]; [reflexivity|]. cbn [forallb lstrip_by].
  intros H. pose proof H as [_ Hs]%andb_true_iff.
  destruct (p ch); [auto | exact H].
Qed.

Lemma rstrip_by_forallb (q : ascii -> bool) p s :
  forallb q s = true -> forallb q (rstrip_by p s) = true.
Proof.
  induction s as [|ch s IH]; [reflexivity|]. cbn [forallb rstrip_by].
  intros [Hch Hs]%andb_true_iff. specialize (IH Hs).
  destruct (rstrip_by p s) as [|d r].
  - destruct (p ch); [reflexivity|]. cbn [forallb]. rewrite Hch. reflexivity.
  - cbn [forallb] in *. rewrite Hch. exact IH.
Qed.

Lemma load_urls_forallb (q : ascii -> bool) content :
  q LF = true -> forallb q content = true ->
  Forall (fun u => forallb q u = true) (load_urls content).
Proof.
  intros Hlf Hq. unfold load_urls, iterate.
  pose proof (readlines_forallb q _
                (universal_newlines_forallb q false content Hlf Hq)) as Hlines.
  induction Hlines as [|line rest Hline _ IH]; [constructor|].
  cbn [List.filter]. destruct (negb (strip line =? "")%string); [|exact IH].
  cbn [map]. constructor; [|exact IH].
  apply rstrip_by_forallb, lstrip_by_forallb, Hline.
Qed.

Lemma latin_1_encodes s : encode latin_1 s = Return s.
Proof.
  unfold encode. generalize 0. induction s as [|ch s IH]; intros n;
    [reflexivity|].
  cbn [encode_from latin_1 encode_char]. rewrite IH. reflexivity.
Qed.

Lemma latin_1_regular : regular latin_1.
Proof.
  split; [|split; [|split; reflexivity]].
  - intros s bytes. rewrite latin_1_encodes. intros [= <-]. reflexivity.
  - intros bytes s _. induction s; cbn; auto.
Qed.

(** X1: whatever the file holds, [load_urls] returns no empty URL, no URL
    with white space at either end and no URL with a line break in it;
    writing the loaded list out one URL per line and loading it again
    gives the same list, as text with the line separators of either
    platform and as a file in the encoding the list was read in, which
    has all its characters. *)
Theorem load_urls_gives_plain_lines content :
  Forall plain_line (load_urls content)
  /\ (forall p,
        load_urls (with_linesep p (Generator.url_lines (load_urls content)))
        = load_urls content)
  /\ (forall c p file,
        regular c -> decode c file = Return content ->
        exists bytes,
          Generator.urls_file c p (load_urls content) = Return bytes
          /\ load_urls_file c bytes = Return (load_urls content)).
Proof.
  pose proof (loaded_lines_are_plain content) as Hplain.
  split; [exact Hplain|]. split.
  - intros p. apply plain_lines_read_back, Hplain.
  - intros c p file (Hloss & Hback & Hlf & Hcr) Hfile.
    destruct (urls_file_success c p (load_urls content) Hlf Hcr) as [bytes Hb].
    { apply load_urls_forallb; [exact Hlf|]. eapply Hback, Hfile. }
    exists bytes. split; [exact Hb|].
    eapply urls_file_reads_back; eauto.
Qed.

Lemma load_urls_gives_plain_lines_latin_1 :
  exists bytes,
    Generator.urls_file latin_1 Windows
      (load_urls ("  https://go.dev " ++ String CR (String LF "https://dev.to")))
    = Return bytes
    /\ load_urls_file latin_1 bytes
       = Return
           (load_urls
              ("  https://go.dev " ++ String CR (String LF "https://dev.to"))).
Proof.
  exact (proj2 (proj2 (load_urls_gives_plain_lines
                         ("  https://go.dev "
                          ++ String CR (String LF "https://dev.to"))))
           latin_1 Windows
           ("  https://go.dev " ++ String CR (String LF "https://dev.to"))
           latin_1_regular eq_refl).
Defined.

(** X2: a list of URLs, none empty, none with white space at either end
    or a line break inside, is written one per line as [generate_urls.py]
    does.  The text comes back line by line when it is iterated, with the
    line separators of either platform.  Whenever the writes succeed,
    [load_urls], reading in the same encoding, reads the file back as the
    very list.  They succeed when
    the encoding of the file has every character of every URL and the
    two line break characters, and one of them raises a
    [UnicodeEncodeError], a [ValueError], when a URL holds a character
    that the encoding lacks. *)
Theorem load_urls_reads_back c p urls :
  lossless c ->
  Forall plain_line urls ->
  iterate (with_linesep p (Generator.url_lines urls))
  = map (fun u => u ++ String LF "") urls
  /\ (forall bytes,
        Generator.urls_file c p urls = Return bytes ->
        load_urls_file c bytes = Return urls)
  /\ (can_encode c LF = true -> can_encode c CR = true ->
      Forall (fun u => forallb (can_encode c) u = true) urls ->
      exists bytes, Generator.urls_file c p urls = Return bytes)
  /\ (Exists (fun u => forallb (can_encode c) u = false) urls ->
      exists e,
        Generator.urls_file c p urls = Raise e /\ exc_class e = ValueError).
Proof.
  intros Hloss Hplain. split; [apply iterate_url_lines, Hplain|].
  split; [|split].
  - intros bytes. apply urls_file_reads_back; assumption.
  - apply urls_file_success.
  - apply urls_file_failure.
Qed.

Lemma load_urls_reads_back_windows :
  exists bytes,
    Generator.urls_file latin_1 Windows
      ["https://go.dev"; "https://dev.to?param0=7"] = Return bytes
    /\ load_urls_file latin_1 bytes
       = Return ["https://go.dev"; "https://dev.to?param0=7"].
Proof.
  pose proof (load_urls_reads_back latin_1 Windows
                ["https://go.dev"; "https://dev.to?param0=7"]
                (proj1 latin_1_regular)) as H.
  destruct H as (_ & Hback & _ & _).
  { repeat constructor; discriminate. }
  eexists. split; [reflexivity|]. apply Hback. reflexivity.
Defined.

(** A URL with a character above 127 cannot be written to an ASCII
    file. *)
Example urls_file_ascii_failure :
  Generator.urls_file ascii_codec Posix
    ["https://go.dev"; "https://example.com/caf" ++ String "233" ""]
  = Raise (mkExc ValueError
             "'ascii' codec can't encode character '\xe9' in position 23: ordinal not in range(128)").
Proof. reflexivity. Qed.

(** Blank lines, white space around a URL and a missing line feed at the
    end are all the same to [load_urls]. *)
Example load_urls_tolerates_blanks :
  load_urls (String LF ("  https://go.dev " ++ String CR (String LF
              (String LF ("   " ++ String CR ("https://dev.to"))))))
  = ["https://go.dev"; "https://dev.to"].
Proof. reflexivity. Qed.

End FileFacts.

(** ** More on one fetch *)

Module FetchFacts.
Import PyStr Crawler.

Lemma fetch_body_time u d t0 got now :
  time_taken (fetch_body u d t0 got now) = (now - t0)%float.
Proof.
  unfold fetch_body. destruct got as [resp|e]; cbn [bind].
  - destruct (resp_status resp =? 200)%Z; [|reflexivity].
    destruct (classify resp) as [t|e]; cbn [bind]; [reflexivity|].
    destruct (exc_class e); reflexivity.
  - destruct (exc_class e); reflexivity.
Qed.

Lemma take_before_find c s k :
  match find c s with
  | Some i => k <= i
  | None => True
  end ->
  contains_char c (take k s) = false.
Proof.
  revert k. induction s as [|d s IH]; intros [|k]; try reflexivity.
  cbn [find take contains_char].
  destruct (Ascii.eqb c d); [lia|].
  intros H. apply IH. destruct (find c s); [lia | exact I].
Qed.

(** [_splitnetloc] stops the authority at the first of [/], [?], [#]. *)
Lemma splitnetloc_stops_at c url start :
  contains_char c "/?#" = true ->
  contains_char c (fst (UrlParse.splitnetloc url start)) = false.
Proof.
  intros Hc. unfold UrlParse.splitnetloc, slice, find_from. cbn [fst].
  apply take_before_find.
  destruct (find "/" (drop start url)) as [i|] eqn:E1,
    (find "?" (drop start url)) as [j|] eqn:E2,
    (find "#" (drop start url)) as [k|] eqn:E3;
    cbn [contains_char] in Hc;
    destruct (Ascii.eqb_spec c "/") as [->|_];
    [rewrite E1| | rewrite E1| | rewrite E1| | rewrite E1|
    | rewrite E1| | rewrite E1| | rewrite E1| | rewrite E1| ];
    try lia; try exact I;
    (destruct (Ascii.eqb_spec c "?") as [->|_];
     [rewrite E2; try lia; exact I|]);
    (destruct (Ascii.eqb_spec c "#") as [->|_];
     [rewrite E3; try lia; exact I | discriminate]).
Qed.

Section Fetch.
Variable check_bracketed_host : string -> option string.

Lemma urlparse_netloc_stops_at c u d :
  contains_char c "/?#" = true ->
  UrlParse.urlparse_netloc check_bracketed_host u = Return d ->
  contains_char c d = false.
Proof.
  intros Hc. unfold UrlParse.urlparse_netloc, UrlParse.urlsplit.
  cbv zeta.
  match goal with
  | |- context [let '(_, _) := ?pair in _] => destruct pair as [sch url2]
  end.
  destruct (String.eqb (take 2 url2) "//").
  - pose proof (splitnetloc_stops_at c url2 2 Hc) as Hstop.
    destruct (UrlParse.splitnetloc url2 2) as [nl rest]. cbn [fst] in Hstop.
    destruct (contains_char "[" nl && negb (contains_char "]" nl)
              || contains_char "]" nl && negb (contains_char "[" nl));
      [discriminate|].
    destruct (if contains_char "[" nl && contains_char "]" nl
              then UrlParse.check_bracketed_netloc check_bracketed_host nl
              else Return tt) as [[]|e]; cbn [bind]; [|discriminate].
    destruct (UrlParse.split_once "#" rest) as [url3 fragment3].
    destruct (UrlParse.split_once "?" url3) as [url4 query4].
    cbn [bind UrlParse.netloc]. intros [= <-]. exact Hstop.
  - cbn [bind].
    destruct (UrlParse.split_once "#" url2) as [url3 fragment3].
    destruct (UrlParse.split_once "?" url3) as [url4 query4].
    cbn [bind UrlParse.netloc]. intros [= <-]. reflexivity.
Qed.

(** X7: the domain of a result never holds a [/], a [?] or a [#]: path,
    query and fragment of the URL stay out of it. *)
Theorem domain_has_no_path u t0 got now r :
  fetch_url check_bracketed_host u t0 got now = Return r ->
  contains_char "/" (domain r) = false
  /\ contains_char "?" (domain r) = false
  /\ contains_char "#" (domain r) = false.
Proof.
  unfold fetch_url.
  destruct (UrlParse.urlparse_netloc check_bracketed_host u) as [d|e] eqn:Hd;
    cbn [bind]; [|discriminate].
  intros [= <-]. rewrite FetchSpec.fetch_body_domain.
  repeat split; eapply urlparse_netloc_stops_at; eauto.
Qed.

(** X6: a result has status 200 only when a response with status 200
    was received and its body could be classified; every other result
    has a title that starts with [Error: ]. *)
Theorem failed_results_say_error u t0 got now r :
  fetch_url check_bracketed_host u t0 got now = Return r ->
  (status r <> 200%Z -> startswith "Error: " (title r) = true)
  /\ (status r = 200%Z ->
      exists resp t,
        got = Return resp /\ resp_status resp = 200%Z
        /\ classify resp = Return t /\ title r = normalise_title t).
Proof.
  unfold fetch_url.
  destruct (UrlParse.urlparse_netloc check_bracketed_host u) as [d|e];
    cbn [bind]; [|discriminate].
  intros [= <-]. unfold fetch_body.
  destruct got as [resp|e]; cbn [bind].
  - destruct (Z.eqb_spec (resp_status resp) 200) as [Hs|Hs].
    + destruct (classify resp) as [t|e] eqn:Hc; cbn [bind].
      * cbn [status title]. split; [congruence|]. intros _.
        exists resp, t. auto.
      * destruct (exc_class e); cbn [status title];
          (split; [intros _; reflexivity | discriminate]).
    + cbn [status title]. split; [intros _; reflexivity | contradiction].
  - destruct (exc_class e); cbn [status title];
      (split; [intros _; reflexivity | discriminate]).
Qed.

End Fetch.

Lemma domain_has_no_path_example :
  contains_char "/" "en.wikipedia.org" = false
  /\ contains_char "?" "en.wikipedia.org" = false
  /\ contains_char "#" "en.wikipedia.org" = false.
Proof.
  apply (domain_has_no_path UrlParse.no_host_validation
           "https://en.wikipedia.org/wiki/TCP/IP?action=raw#History" 1
           (Raise (mkExc TimeoutError "")) 2
           (mkResult "https://en.wikipedia.org/wiki/TCP/IP?action=raw#History"
              "Error: Timeout" (-1) 1 "en.wikipedia.org")).
  reflexivity.
Defined.

Lemma failed_results_say_error_refused :
  (-1 <> 200 -> startswith "Error: " "Error: Connection refused" = true)%Z
  /\ (-1 = 200 ->
      exists resp t,
        Raise (mkExc OtherException "Connection refused") = Return resp
        /\ resp_status resp = 200 /\ classify resp = Return t
        /\ "Error: Connection refused" = normalise_title t)%Z.
Proof.
  apply (failed_results_say_error UrlParse.no_host_validation
           "https://example.com" 1
           (Raise (mkExc OtherException "Connection refused")) 2
           (mkResult "https://example.com" "Error: Connection refused" (-1) 1
              "example.com")).
  reflexivity.
Defined.

End FetchFacts.

(** ** More on a crawl *)

Module CrawlFacts.
Import Crawler.

Section Crawl.
Variable check_bracketed_host : string -> option string.
Variable urls : list string.
Local Abbreviation step := (Crawler.step check_bracketed_host).
Local Abbreviation run := (Crawler.run check_bracketed_host).
Local Abbreviation reaches := (Crawler.reaches check_bracketed_host).

Lemma run_app a b st :
  run urls st (a ++ b)%list
  = match run urls st a with
    | Some st' => run urls st' b
    | None => None
    end.
Proof.
  revert st. induction a as [|ev a IH]; intros st; [reflexivity|].
  cbn [app Crawler.run]. destruct (step urls st ev); auto.
Qed.

Lemma reaches_app n a b st st' :
  reaches urls n a st -> run urls st b = Some st' ->
  reaches urls n (a ++ b)%list st'.
Proof.
  intros (st0 & Hinit & Hrun) Hb. exists st0. split; [exact Hinit|].
  rewrite run_app, Hrun. exact Hb.
Qed.

Lemma reaches_crawl_urls n schedule st :
  reaches urls n schedule st ->
  crawl_urls check_bracketed_host urls n schedule = gather st.
Proof.
  intros (st0 & Hinit & Hrun). unfold crawl_urls.
  rewrite Hinit, Hrun. reflexivity.
Qed.

Lemma crawl_urls_reaches n schedule results :
  crawl_urls check_bracketed_host urls n schedule = Some (Return results) ->
  exists st, reaches urls n schedule st /\ gather st = Some (Return results).
Proof.
  unfold crawl_urls. destruct (init urls n) as [st0|e] eqn:Hinit; [|discriminate].
  destruct (Crawler.run _ urls st0 schedule) as [st|] eqn:Hrun; [|discriminate].
  intros Hg. exists st. split; [exists st0|]; auto.
Qed.

Lemma results_line_up n schedule results :
  crawl_urls check_bracketed_host urls n schedule = Some (Return results) ->
  map url results = urls.
Proof.
  intros Hret.
  destruct (LoopSpec.crawl_urls_results_in_input_order _ _ _ _ _ Hret)
    as (Hlen & Hpos).
  apply list_eq. intros i. rewrite list_lookup_fmap.
  destruct (urls !! i) as [u|] eqn:Hu.
  - destruct (Hpos i u Hu) as (r & t0 & got & now & -> & _ & _ & Hf).
    cbn. f_equal. unfold fetch_url in Hf.
    destruct (UrlParse.urlparse_netloc _ u); cbn [bind] in Hf; [|discriminate].
    injection Hf as <-. apply FetchSpec.fetch_body_url.
  - apply lookup_ge_None in Hu. rewrite <- Hlen in Hu.
    apply lookup_ge_None in Hu. rewrite Hu. reflexivity.
Qed.

(** X8: when [crawl_urls] returns, the URLs of the results are the input
    URLs, in the input order and each once, however the event loop
    interleaved the tasks; duplicates in the input stay duplicates. *)
Theorem crawl_urls_keeps_urls n schedule results :
  crawl_urls check_bracketed_host urls n schedule = Some (Return results) ->
  map url results = urls /\ length results = length urls.
Proof.
  intros Hret. pose proof (results_line_up _ _ _ Hret) as Hmap.
  split; [exact Hmap|]. rewrite <- Hmap, length_map. reflexivity.
Qed.

(** X9: the time recorded in a result runs from the start of its task,
    before the task asks for a slot, to the end of its request: the
    wait for a slot is part of it. *)
Theorem time_taken_counts_from_start n schedule results i r :
  crawl_urls check_bracketed_host urls n schedule = Some (Return results) ->
  results !! i = Some r ->
  exists t0 got now,
    Start i t0 ∈ schedule /\ Complete i got now ∈ schedule
    /\ time_taken r = (now - t0)%float.
Proof.
  intros Hret Hr.
  destruct (LoopSpec.crawl_urls_results_in_input_order _ _ _ _ _ Hret)
    as (Hlen & Hpos).
  destruct (lookup_lt_is_Some_2 urls i) as [u Hu].
  { rewrite <- Hlen. eapply lookup_lt_Some, Hr. }
  destruct (Hpos i u Hu) as (r' & t0 & got & now & Hr' & Hs & Hc & Hf).
  assert (r' = r) as -> by congruence.
  exists t0, got, now. repeat split; auto.
  unfold fetch_url in Hf.
  destruct (UrlParse.urlparse_netloc _ u); cbn [bind] in Hf; [|discriminate].
  injection Hf as <-. apply FetchFacts.fetch_body_time.
Qed.

(** X10: with a limit of at least one, a crawl can always be brought to
    its end: whatever has happened so far, the event loop has events left
    that lead [crawl_urls] to its answer, and no run takes more than
    three events per URL. *)
Theorem crawl_urls_can_always_finish n schedule st :
  (1 <= n)%Z ->
  reaches urls n schedule st ->
  exists more answer,
    crawl_urls check_bracketed_host urls n (schedule ++ more)%list
    = Some answer
    /\ length (schedule ++ more)%list <= 3 * length urls.
Proof.
  intros Hn Hreach.
  assert (Hfinish : forall k schedule st,
             remaining (tasks st) <= k -> reaches urls n schedule st ->
             exists more st' answer,
               run urls st more = Some st' /\ gather st' = Some answer).
  { clear schedule st Hreach.
    induction k as [|k IH]; intros schedule st Hk Hreach;
      (destruct (gather st) as [answer|] eqn:Hg;
       [exists [], st, answer; auto|]);
      destruct (LoopSpec.pending_gather_can_step _ _ _ _ _ Hn Hreach Hg)
        as (ev & st1 & Hstep);
      pose proof (LoopSpec.step_consumes _ _ _ _ _ Hstep) as Hless;
      [lia|].
    destruct (IH (schedule ++ [ev])%list st1) as (more & st' & answer & Hrun & Ha);
      [lia | |].
    { eapply reaches_app; [exact Hreach|]. cbn. rewrite Hstep. reflexivity. }
    exists (ev :: more), st', answer. cbn. rewrite Hstep. auto. }
  destruct (Hfinish _ _ _ (Nat.le_refl _) Hreach)
    as (more & st' & answer & Hrun & Ha).
  pose proof (reaches_app _ _ _ _ _ Hreach Hrun) as Hreach'.
  exists more, answer. split.
  - rewrite (reaches_crawl_urls _ _ _ Hreach'). exact Ha.
  - eapply LoopSpec.schedule_is_bounded, Hreach'.
Qed.

(** X14: no slot leaks: in the state in which [gather] hands the
    results to [crawl_urls], no task holds a slot and the counter of the
    semaphore is back at the limit. *)
Theorem semaphore_is_free_at_the_end n schedule st results :
  reaches urls n schedule st ->
  gather st = Some (Return results) ->
  held (tasks st) = 0 /\ sem_value st = n.
Proof.
  intros Hreach Hg.
  pose proof (LoopSpec.reaches_balanced _ _ _ _ _ Hreach) as (Hsum & _ & _).
  assert (Hheld : held (tasks st) = 0); [|split; [exact Hheld | lia]].
  unfold gather in Hg. destruct (gather_exc st); [discriminate|].
  destruct (mapM task_result (tasks st)) as [rs|] eqn:Hm; [|discriminate].
  apply mapM_Some in Hm. clear - Hm.
  induction Hm as [|t r ts rs Ht _ IH]; [reflexivity|].
  destruct t; try discriminate. exact IH.
Qed.

Lemma step_without_slots st ev st' :
  sem_value st = 0%Z ->
  Forall (fun t => slot t = 0 /\ task_result t = None) (tasks st) ->
  step urls st ev = Some st' ->
  sem_value st' = 0%Z
  /\ Forall (fun t => slot t = 0 /\ task_result t = None) (tasks st').
Proof.
  intros Hv Hall. unfold Crawler.step.
  destruct (gather_exc st); [discriminate|].
  destruct ev as [i now|i|i got now].
  - destruct (tasks st !! i) as [[| | | |]|]; try discriminate.
    destruct (urls !! i); [|discriminate].
    destruct (UrlParse.urlparse_netloc _ _); intros [= <-]; cbn;
      (split; [exact Hv | apply Forall_insert; auto]).
  - destruct (tasks st !! i) as [[| | | |]|]; try discriminate.
    rewrite Hv. discriminate.
  - destruct (tasks st !! i) as [[| |t0 d| |]|] eqn:Hi; try discriminate.
    destruct (Forall_lookup_1 _ _ _ _ Hall Hi) as [Hslot _]. discriminate.
Qed.

Lemma run_without_slots schedule st st' :
  sem_value st = 0%Z ->
  Forall (fun t => slot t = 0 /\ task_result t = None) (tasks st) ->
  run urls st schedule = Some st' ->
  Forall (fun t => slot t = 0 /\ task_result t = None) (tasks st').
Proof.
  revert st. induction schedule as [|ev rest IH]; intros st Hv Hall; cbn.
  - intros [= <-]. exact Hall.
  - destruct (step urls st ev) as [st1|] eqn:Hstep; [|discriminate].
    destruct (step_without_slots _ _ _ Hv Hall Hstep). eauto.
Qed.

(** X11: with a limit of zero no task ever gets a slot: for a list with
    at least one URL, [crawl_urls] returns no results under any
    schedule. *)
Theorem crawl_urls_without_slots_never_returns schedule results :
  urls <> [] ->
  crawl_urls check_bracketed_host urls 0 schedule <> Some (Return results).
Proof.
  intros Hurls Hret.
  destruct (crawl_urls_reaches _ _ _ Hret) as (st & Hreach & Hg).
  pose proof (LoopSpec.reaches_balanced _ _ _ _ _ Hreach) as (_ & _ & Hlen).
  destruct Hreach as (st0 & Hinit & Hrun). injection Hinit as <-.
  apply run_without_slots in Hrun as Hidle; cbn [sem_value tasks];
    [|reflexivity|apply Forall_fmap, Forall_forall; intros; cbn; auto].
  unfold gather in Hg. destruct (gather_exc st); [discriminate|].
  destruct (mapM task_result (tasks st)) as [rs|] eqn:Hm; [|discriminate].
  apply mapM_Some in Hm.
  destruct (tasks st) as [|t ts].
  - destruct urls; [contradiction | discriminate].
  - inversion Hidle as [|? ? [_ Hnone] _]; subst.
    inversion Hm as [|? r ? ? Hsome _]; subst. congruence.
Qed.

End Crawl.

Section Report.
Variable check_bracketed_host : string -> option string.

(** X3: the report that [main] saves is consistent with the URL file:
    its results carry the URLs that [load_urls] read, in their order;
    [total_urls] is the number of results; the two counters add up to
    it; [total_time] is the measured time. *)
Theorem main_report_is_consistent content n schedule t rep :
  Main.main_report check_bracketed_host (Some content) n schedule t
  = inr (Some (Return rep)) ->
  map url (Main.report_results rep) = Main.load_urls content
  /\ total_urls (Main.report_summary rep)
     = length (Main.report_results rep)
  /\ successful_fetches (Main.report_summary rep)
     + failed_fetches (Main.report_summary rep)
     = length (Main.report_results rep)
  /\ total_time (Main.report_summary rep) = t.
Proof.
  unfold Main.main_report, Main.crawl_report. intros [= H]. revert H.
  destruct (crawl_urls check_bracketed_host (Main.load_urls content) n schedule)
    as [[results|e]|] eqn:Hcrawl; try discriminate.
  rewrite SummarySpec.summary_returns. cbn [bind]. intros [= <-].
  cbn [Main.report_results Main.report_summary total_urls successful_fetches
       failed_fetches total_time].
  pose proof (results_line_up _ _ _ _ _ Hcrawl) as Hmap.
  assert (Hlen : length (Main.load_urls content) = length results)
    by (rewrite <- Hmap, length_map; reflexivity).
  repeat split; auto. rewrite SummarySpec.count_status_split. reflexivity.
Qed.


End Report.

(** *** Concrete runs *)

Lemma crawl_urls_keeps_urls_scenario :
  map url
    [mkResult "https://example.com" "Example" 200 0.5 "example.com";
     mkResult "https://httpbin.org/status/500" "Error: HTTP 500" 500 0.75
       "httpbin.org";
     mkResult "https://httpbin.org/delay/999" "Error: Timeout" (-1) 1.5
       "httpbin.org"]
  = scenario_urls
  /\ 3 = length scenario_urls.
Proof.
  apply (crawl_urls_keeps_urls UrlParse.no_host_validation scenario_urls 2
           scenario_schedule).
  reflexivity.
Defined.

Lemma time_taken_counts_from_start_scenario :
  exists t0 got now,
    Start 2 t0 ∈ scenario_schedule /\ Complete 2 got now ∈ scenario_schedule
    /\ time_taken
         (mkResult "https://httpbin.org/delay/999" "Error: Timeout" (-1) 1.5
            "httpbin.org")
       = (now - t0)%float.
Proof.
  apply (time_taken_counts_from_start UrlParse.no_host_validation
           scenario_urls 2 scenario_schedule
           [mkResult "https://example.com" "Example" 200 0.5 "example.com";
            mkResult "https://httpbin.org/status/500" "Error: HTTP 500" 500
              0.75 "httpbin.org";
            mkResult "https://httpbin.org/delay/999" "Error: Timeout" (-1)
              1.5 "httpbin.org"] 2);
    reflexivity.
Defined.

Lemma crawl_urls_can_always_finish_two_slots :
  exists more answer,
    crawl_urls UrlParse.no_host_validation scenario_urls 2
      (two_slots_taken ++ more)%list = Some answer
    /\ length (two_slots_taken ++ more)%list <= 3 * length scenario_urls.
Proof.
  eapply (crawl_urls_can_always_finish UrlParse.no_host_validation
            scenario_urls 2 two_slots_taken).
  - lia.
  - eexists. split; reflexivity.
Defined.

Lemma semaphore_is_free_at_the_end_scenario :
  exists st,
    Crawler.reaches UrlParse.no_host_validation scenario_urls 2
      scenario_schedule st
    /\ held (tasks st) = 0 /\ sem_value st = 2%Z.
Proof.
  eexists. split; [eexists; split; reflexivity|].
  eapply (semaphore_is_free_at_the_end UrlParse.no_host_validation
            scenario_urls 2 scenario_schedule).
  - eexists; split; reflexivity.
  - reflexivity.
Defined.

Lemma crawl_urls_without_slots_scenario :
  scenario_urls <> []
  /\ crawl_urls UrlParse.no_host_validation scenario_urls 0
       [Start 0 0%float; Start 1 0%float; Start 2 0%float]
     <> Some (Return []).
Proof.
  split; [discriminate|].
  apply (crawl_urls_without_slots_never_returns UrlParse.no_host_validation
           scenario_urls [Start 0 0%float; Start 1 0%float; Start 2 0%float]
           []).
  discriminate.
Defined.

Lemma main_report_is_consistent_scenario :
  exists rep,
    Main.main_report UrlParse.no_host_validation
      (Some (TextFile.with_linesep TextFile.Posix
               (Generator.url_lines scenario_urls))) 2
      scenario_schedule 1.5 = inr (Some (Return rep))
    /\ map url (Main.report_results rep) = scenario_urls
    /\ total_urls (Main.report_summary rep) = 3
    /\ successful_fetches (Main.report_summary rep) = 1
    /\ failed_fetches (Main.report_summary rep) = 2.
Proof.
  eexists. split; [reflexivity|].
  pose proof (main_report_is_consistent UrlParse.no_host_validation
                (TextFile.with_linesep TextFile.Posix
                   (Generator.url_lines scenario_urls)) 2
                scenario_schedule 1.5 _ eq_refl) as (Hurls & _).
  split; [exact Hurls|]. repeat split.
Defined.

End CrawlFacts.

(** ** The generated URL list *)

Module GeneratorFacts.
Import Generator.

Lemma articles_count : length WIKIPEDIA_ARTICLES = 68.
Proof. reflexivity. Qed.

Lemma endpoints_count : length HTTPBIN_ENDPOINTS = 20.
Proof. reflexivity. Qed.

Lemma popular_count : length POPULAR_WEBSITES = 10.
Proof. reflexivity. Qed.

Lemma half_sign count : (0 <= count <-> 0 <= count / 2)%Z.
Proof.
  pose proof (Z.div_mod count 2). pose proof (Z.mod_pos_bound count 2). lia.
Qed.

Lemma quarter_sign count : (0 <= count <-> 0 <= count / 4)%Z.
Proof.
  pose proof (Z.div_mod count 4). pose proof (Z.mod_pos_bound count 4). lia.
Qed.

Lemma sample_returns population k picks :
  (0 <= k <= Z.of_nat (length population))%Z ->
  sample population k picks = Return (selected population picks).
Proof.
  intros H. unfold sample.
  destruct (Z.ltb_spec k 0), (Z.ltb_spec (Z.of_nat (length population)) k);
    try lia. reflexivity.
Qed.

Lemma sample_negative population k picks :
  (k < 0)%Z -> sample population k picks = Raise sample_error.
Proof.
  intros H. unfold sample. destruct (Z.ltb_spec k 0); [reflexivity | lia].
Qed.

(** The list that is shuffled and cut. *)
Lemma generate_urls_returns count d :
  (0 <= count)%Z ->
  generate_urls count d
  = Return (slice_to
              (selected
                 (assemble count d
                    (selected WIKIPEDIA_ARTICLES (article_picks d))
                    (selected HTTPBIN_ENDPOINTS (endpoint_picks d)))
                 (shuffle_order d))
              count).
Proof.
  intros Hcount. unfold generate_urls. cbv zeta.
  rewrite articles_count, endpoints_count.
  pose proof (proj1 (half_sign count) Hcount).
  pose proof (proj1 (quarter_sign count) Hcount).
  rewrite !sample_returns
    by (rewrite ?articles_count, ?endpoints_count; lia).
  reflexivity.
Qed.

(** X5: a negative [count] makes [generate_urls] fail with the
    [ValueError] of [random.sample], whatever the random draws. *)
Theorem generate_urls_negative_count count d :
  (count < 0)%Z -> generate_urls count d = Raise sample_error.
Proof.
  intros Hcount. unfold generate_urls. cbv zeta.
  rewrite sample_negative; [reflexivity|].
  pose proof (half_sign count). lia.
Qed.

Lemma length_selected population picks :
  length (selected population picks) = length picks.
Proof. apply length_map. Qed.

Lemma length_assemble count d articles endpoints :
  length (assemble count d articles endpoints)
  = Nat.max (length POPULAR_WEBSITES + length articles + length endpoints)
      (Z.to_nat count).
Proof.
  unfold assemble. cbv zeta.
  assert (Hbase : length (base_urls articles endpoints)
                  = length POPULAR_WEBSITES + length articles
                    + length endpoints).
  { unfold base_urls. rewrite !length_app, !length_map. reflexivity. }
  rewrite Hbase.
  destruct (Z.ltb_spec 0 (count - Z.of_nat (length POPULAR_WEBSITES
                                            + length articles
                                            + length endpoints))).
  - rewrite length_app, length_map, length_seq, Hbase. lia.
  - rewrite Hbase. lia.
Qed.

(** X4: for every [count] that is not negative and whatever the random
    draws, [generate_urls] returns exactly [count] URLs. *)
Theorem generate_urls_count count d :
  (0 <= count)%Z -> possible count d ->
  exists urls,
    generate_urls count d = Return urls /\ Z.of_nat (length urls) = count.
Proof.
  intros Hcount (_ & _ & _ & _ & Hshuffle).
  eexists. split; [apply generate_urls_returns, Hcount|].
  unfold slice_to. destruct (Z.ltb_spec count 0); [lia|].
  rewrite length_take, length_selected.
  rewrite (Permutation_length Hshuffle), length_seq, length_assemble. lia.
Qed.

Lemma selected_forall (Q : string -> Prop) population picks :
  Forall (fun i => i < length population) picks ->
  Forall Q population -> Forall Q (selected population picks).
Proof.
  intros Hpicks HQ. unfold selected. apply Forall_fmap.
  eapply Forall_impl; [exact Hpicks|]. intros i Hi. cbn.
  destruct (lookup_lt_is_Some_2 population i Hi) as [x Hx]. rewrite Hx.
  cbn. eapply Forall_lookup_1; eauto.
Qed.

(** Where a generated URL comes from: a popular site, an article that
    was drawn, an endpoint that was drawn, or one of these with a query
    appended. *)
Lemma generated_forall_picked (P : string -> Prop) count d urls :
  possible count d ->
  generate_urls count d = Return urls ->
  Forall P POPULAR_WEBSITES ->
  Forall (fun a => P (WIKIPEDIA_BASE ++ a))
    (selected WIKIPEDIA_ARTICLES (article_picks d)) ->
  Forall (fun e => P (HTTPBIN_BASE ++ e))
    (selected HTTPBIN_ENDPOINTS (endpoint_picks d)) ->
  (forall base i z,
      P base -> (1 <= z <= 1000)%Z ->
      P (base ++ "?param" ++ PyStr.str_of_len i ++ "="
         ++ PyStr.str_of_int z)) ->
  Forall P urls.
Proof.
  intros (Harticles & Hendpoints & Hchoice & Hrand & Hshuffle) Hgen
    Hpop Hwiki Hbin Hvar.
  destruct (Z.ltb_spec count 0) as [Hneg|Hcount].
  { unfold generate_urls in Hgen. cbv zeta in Hgen.
    rewrite sample_negative in Hgen; [discriminate|].
    pose proof (half_sign count). lia. }
  rewrite (generate_urls_returns _ _ Hcount) in Hgen. injection Hgen as <-.
  set (articles := selected WIKIPEDIA_ARTICLES (article_picks d)) in *.
  set (endpoints := selected HTTPBIN_ENDPOINTS (endpoint_picks d)) in *.
  assert (Hbases : Forall P (base_urls articles endpoints)).
  { unfold base_urls. rewrite !Forall_app. repeat split.
    - exact Hpop.
    - apply Forall_fmap. exact Hwiki.
    - apply Forall_fmap. exact Hbin. }
  assert (Hall : Forall P (assemble count d articles endpoints)).
  { unfold assemble. cbv zeta.
    destruct (0 <? count - Z.of_nat (length (base_urls articles endpoints)))%Z;
      [|exact Hbases].
    apply Forall_app. split; [exact Hbases|].
    apply Forall_fmap, Forall_forall. intros i _.
    unfold compose, variant. cbv zeta.
    destruct (lookup_lt_is_Some_2 _ _ (Hchoice i)) as [base Hbase].
    rewrite Hbase. cbn [default]. apply Hvar; [|apply Hrand].
    eapply Forall_lookup_1; eauto. }
  unfold slice_to.
  assert (Hshuffled : Forall P (selected (assemble count d articles endpoints)
                                  (shuffle_order d))).
  { apply selected_forall; [|exact Hall].
    rewrite Hshuffle. apply Forall_seq. intros j Hj. lia. }
  destruct (count <? 0)%Z; apply Forall_take, Hshuffled.
Qed.

Lemma generated_forall (P : string -> Prop) count d urls :
  possible count d ->
  generate_urls count d = Return urls ->
  Forall P POPULAR_WEBSITES ->
  Forall (fun a => P (WIKIPEDIA_BASE ++ a)) WIKIPEDIA_ARTICLES ->
  Forall (fun e => P (HTTPBIN_BASE ++ e)) HTTPBIN_ENDPOINTS ->
  (forall base i z,
      P base -> (1 <= z <= 1000)%Z ->
      P (base ++ "?param" ++ PyStr.str_of_len i ++ "="
         ++ PyStr.str_of_int z)) ->
  Forall P urls.
Proof.
  intros Hpossible Hgen Hpop Hwiki Hbin Hvar.
  pose proof Hpossible as (Harticles & Hendpoints & _).
  eapply generated_forall_picked; eauto.
  - apply selected_forall; [apply Harticles | exact Hwiki].
  - apply selected_forall; [apply Hendpoints | exact Hbin].
Qed.

(** *** Generated URLs and the crawler *)

Lemma append_empty_r (a : string) : a ++ "" = a.
Proof. induction a as [|x a IH]; [reflexivity|]. cbn. rewrite IH. reflexivity. Qed.

Lemma startswith_drop p u :
  PyStr.startswith p u = true -> u = p ++ PyStr.drop (String.length p) u.
Proof.
  revert u. induction p as [|x p IH]; intros [|y u]; try discriminate;
    try reflexivity.
  cbn. intros [Hxy Hp]%andb_true_iff. apply Ascii.eqb_eq in Hxy as ->.
  f_equal. apply IH, Hp.
Qed.

Lemma hosts_are_authorities :
  Forall (fun h =>
            PyStr.forallb UrlParse.is_authority_char h = true /\ h <> "")
    hosts.
Proof. repeat constructor; discriminate. Qed.

Lemma popular_are_host_only :
  Forall (fun u => host_only u = true) POPULAR_WEBSITES.
Proof. repeat constructor. Qed.

Lemma popular_on_host : Forall on_host POPULAR_WEBSITES.
Proof.
  apply Forall_forall. intros u Hu.
  pose proof (proj1 (Forall_forall _ _) popular_are_host_only u Hu) as Hhost.
  unfold host_only in Hhost.
  apply andb_true_iff in Hhost as [[Hstart _]%andb_true_iff _].
  exists (PyStr.drop 8 u), "". rewrite append_empty_r.
  split; [exact (startswith_drop "https://" u Hstart)|].
  split; [|reflexivity].
  unfold hosts. apply elem_of_app. left.
  apply (list_elem_of_fmap_2 (PyStr.drop 8)), Hu.
Qed.

Lemma article_on_host a : on_host (WIKIPEDIA_BASE ++ a).
Proof.
  exists "en.wikipedia.org", ("/wiki/" ++ a).
  split; [reflexivity|]. split; [|reflexivity].
  unfold hosts. apply elem_of_app. right. repeat constructor.
Qed.

Lemma endpoint_on_host e : on_host (HTTPBIN_BASE ++ e).
Proof.
  exists "httpbin.org", ("/" ++ e).
  split; [reflexivity|]. split; [|reflexivity].
  unfold hosts. apply elem_of_app. right. repeat constructor.
Qed.

Lemma query_stays_on_host base q :
  on_host base -> on_host (base ++ String "?" q).
Proof.
  intros (host & rest & -> & Hhost & Hrest).
  exists host, (rest ++ String "?" q). repeat split; auto.
  - rewrite !FileFacts.append_assoc. reflexivity.
  - destruct rest; [reflexivity | exact Hrest].
Qed.

Section Crawlable.
Variable check_bracketed_host : string -> option string.

Lemma on_host_is_fetched u t0 got now :
  on_host u ->
  exists r rest,
    Crawler.fetch_url check_bracketed_host u t0 got now = Return r
    /\ Crawler.url r = u
    /\ Crawler.domain r ∈ hosts
    /\ u = "https://" ++ Crawler.domain r ++ rest
    /\ UrlParse.starts_component rest = true.
Proof.
  intros (host & rest & -> & Hhost & Hrest).
  destruct (proj1 (Forall_forall _ _) hosts_are_authorities host Hhost)
    as [Hauth _].
  unfold Crawler.fetch_url.
  change ("https://" ++ host ++ rest) with ("https" ++ "://" ++ host ++ rest).
  rewrite (UrlFacts.urlparse_netloc_authority check_bracketed_host
             "https" host rest eq_refl Hauth Hrest).
  eexists _, rest. split; [reflexivity|].
  rewrite FetchSpec.fetch_body_url, FetchSpec.fetch_body_domain.
  repeat split; auto.
Qed.

(** X12: [fetch_url] accepts every URL that [generate_urls] produces:
    it returns a result, never the [ValueError] of [urlparse]; the
    domain of the result is one of the twelve hosts of the tables, and
    it is the host of the URL: the URL is [https://], this domain, and
    then nothing or a path or a query. *)
Theorem generated_urls_are_fetched count d urls :
  possible count d ->
  generate_urls count d = Return urls ->
  Forall (fun u =>
            forall t0 got now,
            exists r rest,
              Crawler.fetch_url check_bracketed_host u t0 got now = Return r
              /\ Crawler.url r = u
              /\ Crawler.domain r ∈ hosts
              /\ u = "https://" ++ Crawler.domain r ++ rest
              /\ UrlParse.starts_component rest = true)
    urls.
Proof.
  intros Hpossible Hgen.
  assert (Hhost : Forall on_host urls).
  { eapply generated_forall; eauto.
    - apply popular_on_host.
    - apply Forall_forall. intros a _. apply article_on_host.
    - apply Forall_forall. intros e _. apply endpoint_on_host.
    - intros base i z Hbase _. apply (query_stays_on_host base), Hbase. }
  eapply Forall_impl; [exact Hhost|].
  intros u Hu t0 got now. apply on_host_is_fetched, Hu.
Qed.

End Crawlable.

(** *** Generated URLs and the URL file *)

Lemma no_space_app a b : no_space (a ++ b) = no_space a && no_space b.
Proof.
  unfold no_space. induction a as [|x a IH]; [reflexivity|].
  cbn [append PyStr.forallb]. rewrite IH, andb_assoc. reflexivity.
Qed.

Lemma digits_no_space d : no_space (NilEmpty.string_of_uint d) = true.
Proof. induction d; cbn [NilEmpty.string_of_uint]; auto. Qed.

Lemma str_of_len_no_space n : no_space (PyStr.str_of_len n) = true.
Proof.
  unfold PyStr.str_of_len, NilZero.string_of_uint.
  destruct (Nat.to_uint n); try reflexivity; apply digits_no_space.
Qed.

Lemma str_of_int_no_space z : no_space (PyStr.str_of_int z) = true.
Proof.
  unfold PyStr.str_of_int, NilZero.string_of_int, NilZero.string_of_uint.
  destruct (Z.to_int z) as [d|d]; destruct d; try reflexivity;
    apply (digits_no_space (_ d)) || apply digits_no_space.
Qed.

Lemma rstrip_by_fixed p s :
  PyStr.forallb (fun c => negb (p c)) s = true -> PyStr.rstrip_by p s = s.
Proof.
  induction s as [|c s IH]; [reflexivity|]. cbn [PyStr.forallb PyStr.rstrip_by].
  intros [Hc Hs]%andb_true_iff. rewrite (IH Hs).
  destruct s; [|reflexivity]. apply negb_true_iff in Hc. rewrite Hc.
  reflexivity.
Qed.

Lemma no_space_plain s : no_space s = true -> s <> "" -> Main.plain_line s.
Proof.
  intros Hs Hne. split; [exact Hne|].
  assert (Hstrip : PyStr.strip s = s).
  { unfold PyStr.strip. destruct s as [|c s]; [contradiction|].
    pose proof Hs as [Hc _]%andb_true_iff. apply negb_true_iff in Hc.
    cbn [PyStr.lstrip_by]. rewrite Hc. apply rstrip_by_fixed, Hs. }
  split; [exact Hstrip|].
  split; eapply UrlFacts.forallb_absent; try exact Hs; reflexivity.
Qed.

Lemma seven_bit_app a b : seven_bit (a ++ b) = seven_bit a && seven_bit b.
Proof. apply FileFacts.forallb_app. Qed.

Lemma digits_seven_bit d : seven_bit (NilEmpty.string_of_uint d) = true.
Proof. induction d; cbn [NilEmpty.string_of_uint]; auto. Qed.

Lemma str_of_len_seven_bit n : seven_bit (PyStr.str_of_len n) = true.
Proof.
  unfold PyStr.str_of_len, NilZero.string_of_uint.
  destruct (Nat.to_uint n); try reflexivity; apply digits_seven_bit.
Qed.

Lemma str_of_int_seven_bit z : seven_bit (PyStr.str_of_int z) = true.
Proof.
  unfold PyStr.str_of_int, NilZero.string_of_int, NilZero.string_of_uint.
  destruct (Z.to_int z) as [d|d]; destruct d; try reflexivity;
    apply (digits_seven_bit (_ d)) || apply digits_seven_bit.
Qed.

Lemma seven_bit_encodable c s :
  TextFile.has_ascii c -> seven_bit s = true ->
  PyStr.forallb (TextFile.can_encode c) s = true.
Proof.
  intros Hc. unfold seven_bit.
  induction s as [|ch s IH]; [reflexivity|]. cbn [PyStr.forallb].
  intros [Hch Hs]%andb_true_iff. apply Nat.ltb_lt in Hch.
  rewrite (Hc ch Hch). exact (IH Hs).
Qed.

(** Every article but the one with the dash is of characters below 128. *)
Lemma articles_but_one_are_plain :
  Forall (fun a => no_space a = true /\ seven_bit a = true)
    (<[29 := ""]> WIKIPEDIA_ARTICLES).
Proof. vm_compute. repeat constructor. Qed.

Lemma picked_articles_are_plain picks :
  29 ∉ picks ->
  Forall (fun a => plain_url (WIKIPEDIA_BASE ++ a))
    (selected WIKIPEDIA_ARTICLES picks).
Proof.
  intros Hout. unfold selected. apply Forall_fmap, Forall_forall.
  intros i Hi. unfold compose.
  assert (Hi29 : 29 <> i) by (intros <-; contradiction).
  rewrite <- (list_lookup_insert_ne WIKIPEDIA_ARTICLES 29 i "" Hi29).
  assert (Ha : no_space (default "" (<[29 := ""]> WIKIPEDIA_ARTICLES !! i))
               = true
               /\ seven_bit (default "" (<[29 := ""]> WIKIPEDIA_ARTICLES !! i))
                  = true).
  { destruct (<[29 := ""]> WIKIPEDIA_ARTICLES !! i) as [a|] eqn:E;
      [|split; reflexivity].
    exact (Forall_lookup_1 _ _ _ _ articles_but_one_are_plain E). }
  destruct Ha as [Hspace Hseven]. unfold plain_url.
  rewrite no_space_app, seven_bit_app, Hspace, Hseven.
  repeat split; discriminate.
Qed.

Lemma tables_are_plain :
  Forall plain_url POPULAR_WEBSITES
  /\ Forall (fun e => plain_url (HTTPBIN_BASE ++ e)) HTTPBIN_ENDPOINTS.
Proof.
  split; repeat constructor; discriminate.
Qed.

Lemma generated_are_plain count d urls :
  possible count d ->
  29 ∉ article_picks d ->
  generate_urls count d = Return urls ->
  Forall plain_url urls.
Proof.
  intros Hpossible Hout Hgen.
  destruct tables_are_plain as (Hpop & Hbin).
  pose proof Hpossible as (_ & Hendpoints & _).
  eapply generated_forall_picked; eauto.
  - apply picked_articles_are_plain, Hout.
  - apply selected_forall; [apply Hendpoints | exact Hbin].
  - intros base i z (Hbase & Hne & Hseven) _. repeat split.
    + rewrite !no_space_app, Hbase, str_of_len_no_space, str_of_int_no_space.
      reflexivity.
    + destruct base; [contradiction | discriminate].
    + rewrite !seven_bit_app, Hseven, str_of_len_seven_bit,
        str_of_int_seven_bit.
      reflexivity.
Qed.

(** X13: when the article with the dash is not among the articles drawn
    and the encoding of the file gives back what it encoded and has the
    characters below 128, every write of [generate_urls.py] succeeds and
    [load_urls], reading in the same encoding, reads the file back as the
    very list that was generated,
    on either platform: every generated URL is then non-empty, free of
    white space and of characters below 128. *)
Theorem generated_file_reads_back c p count d urls :
  TextFile.lossless c -> TextFile.has_ascii c ->
  possible count d ->
  29 ∉ article_picks d ->
  generate_urls count d = Return urls ->
  Forall (fun u => no_space u = true /\ u <> "" /\ seven_bit u = true) urls
  /\ exists bytes,
       urls_file c p urls = Return bytes
       /\ Main.load_urls_file c bytes = Return urls.
Proof.
  intros Hloss Hascii Hpossible Hout Hgen.
  pose proof (generated_are_plain _ _ _ Hpossible Hout Hgen) as Hplain.
  split; [exact Hplain|].
  destruct (FileFacts.urls_file_success c p urls) as [bytes Hbytes].
  - apply Hascii. vm_compute. lia.
  - apply Hascii. vm_compute. lia.
  - eapply Forall_impl; [exact Hplain|]. intros u (_ & _ & Hseven).
    apply seven_bit_encodable; assumption.
  - exists bytes. split; [exact Hbytes|].
    apply (FileFacts.urls_file_reads_back c p urls bytes Hloss); [|exact Hbytes].
    eapply Forall_impl; [exact Hplain|]. intros u (Hspace & Hne & _).
    apply no_space_plain; assumption.
Qed.

(** *** Concrete draws *)

Lemma sample_draws_possible : possible 100 sample_draws.
Proof.
  unfold possible. cbv zeta.
  change (Z.min (100 / 2) (Z.of_nat (length WIKIPEDIA_ARTICLES))) with 50%Z.
  change (Z.min (100 / 4) (Z.of_nat (length HTTPBIN_ENDPOINTS))) with 20%Z.
  assert (Hbases : length (base_urls
                             (selected WIKIPEDIA_ARTICLES
                                (article_picks sample_draws))
                             (selected HTTPBIN_ENDPOINTS
                                (endpoint_picks sample_draws))) = 80)
    by reflexivity.
  split; [|split; [|split; [|split]]].
  - split; [reflexivity|]. split; [apply NoDup_seq|].
    apply Forall_seq. intros j Hj. rewrite articles_count. lia.
  - split; [reflexivity|]. split; [apply NoDup_seq|].
    apply Forall_seq. intros j Hj. rewrite endpoints_count. lia.
  - intros i. rewrite Hbases. cbn [choice_at sample_draws].
    apply Nat.mod_upper_bound. lia.
  - intros i. cbn [randint_at sample_draws].
    pose proof (Nat.mod_upper_bound i 1000). lia.
  - rewrite length_assemble, !length_selected. cbn [shuffle_order sample_draws].
    symmetry. apply Permutation_rev.
Qed.

Lemma generate_urls_count_hundred :
  exists urls,
    generate_urls 100 sample_draws = Return urls
    /\ Z.of_nat (length urls) = 100%Z.
Proof.
  apply (generate_urls_count 100 sample_draws).
  - lia.
  - exact sample_draws_possible.
Defined.

Lemma generate_urls_negative_count_minus_five :
  generate_urls (-5) sample_draws = Raise sample_error.
Proof.
  apply (generate_urls_negative_count (-5) sample_draws). lia.
Defined.

Lemma generated_urls_are_fetched_hundred :
  exists urls,
    generate_urls 100 sample_draws = Return urls
    /\ Forall (fun u =>
                forall t0 got now,
                exists r rest,
                  Crawler.fetch_url UrlParse.no_host_validation u t0 got now
                  = Return r
                  /\ Crawler.url r = u
                  /\ Crawler.domain r ∈ hosts
                  /\ u = "https://" ++ Crawler.domain r ++ rest
                  /\ UrlParse.starts_component rest = true)
         urls.
Proof.
  eexists. split; [apply generate_urls_returns; lia|].
  apply (generated_urls_are_fetched UrlParse.no_host_validation 100
           sample_draws).
  - exact sample_draws_possible.
  - apply generate_urls_returns. lia.
Defined.

Lemma plain_draws_possible : possible 60 plain_draws.
Proof.
  unfold possible. cbv zeta.
  change (Z.min (60 / 2) (Z.of_nat (length WIKIPEDIA_ARTICLES))) with 30%Z.
  change (Z.min (60 / 4) (Z.of_nat (length HTTPBIN_ENDPOINTS))) with 15%Z.
  assert (Hbases : length (base_urls
                             (selected WIKIPEDIA_ARTICLES
                                (article_picks plain_draws))
                             (selected HTTPBIN_ENDPOINTS
                                (endpoint_picks plain_draws))) = 55)
    by reflexivity.
  split; [|split; [|split; [|split]]].
  - split; [reflexivity|]. split; [apply NoDup_seq|].
    apply Forall_seq. intros j Hj. rewrite articles_count. lia.
  - split; [reflexivity|]. split; [apply NoDup_seq|].
    apply Forall_seq. intros j Hj. rewrite endpoints_count. lia.
  - intros i. rewrite Hbases. cbn [choice_at plain_draws].
    apply Nat.mod_upper_bound. lia.
  - intros i. cbn [randint_at plain_draws].
    pose proof (Nat.mod_upper_bound i 1000). lia.
  - rewrite length_assemble, !length_selected. cbn [shuffle_order plain_draws].
    symmetry. apply Permutation_rev.
Qed.

Lemma generated_file_reads_back_sixty :
  exists urls,
    generate_urls 60 plain_draws = Return urls
    /\ Forall (fun u => no_space u = true /\ u <> "" /\ seven_bit u = true)
         urls
    /\ exists bytes,
         urls_file TextFile.latin_1 TextFile.Windows urls = Return bytes
         /\ Main.load_urls_file TextFile.latin_1 bytes = Return urls.
Proof.
  eexists. split; [apply generate_urls_returns; lia|].
  apply (generated_file_reads_back TextFile.latin_1 TextFile.Windows 60
           plain_draws).
  - exact (proj1 FileFacts.latin_1_regular).
  - intros ch _. reflexivity.
  - exact plain_draws_possible.
  - cbn [article_picks plain_draws]. rewrite elem_of_seq. lia.
  - apply generate_urls_returns. lia.
Defined.

(** The shuffle of these draws puts the last variant first. *)
Example generate_urls_sample_head :
  exists rest,
    generate_urls 100 sample_draws
    = Return ("https://en.wikipedia.org/wiki/JavaScript?param19=20" :: rest).
Proof. eexists. reflexivity. Qed.

End GeneratorFacts.
